(** * altair_parser.jsonschema: the JSONSchema wrapper class

    A shallow embedding of [src/altair_parser/jsonschema.py].  The class
    wraps one subtree of a JSON Schema document together with the root of
    the document (its context), classifies the subtree, resolves [$ref]
    codes against the root with a class-level cache, and maps the subtree
    to the source text of a traitlet ([trait_code]).  [module_spec]
    assembles the dictionary of generated files.

    Python values are dynamically typed: every operation the class applies
    to a schema is modelled on an arbitrary JSON value and raises the
    exception Python raises when the value has the wrong shape. *)

From stdpp Require Import gmap strings list.
From Stdlib Require Import ZArith Ascii String.

Set Warnings "-register-all".

Local Open Scope string_scope.
Local Open Scope list_scope.

(** ** Python values *)

Module Py.

(** What [json.load] produces.  A [JDict] lists the entries of a [dict]
    in insertion order; Python dictionaries hold each key once, and a
    lookup in the list takes the first entry of a key.  [JFloat m e]
    stands for the decimal [m * 10^e]. *)
Inductive json : Type :=
| JNull
| JBool (b : bool)
| JInt (n : Z)
| JFloat (m e : Z)
| JStr (s : string)
| JList (l : list json)
| JDict (d : list (string * json)).

(** The exceptions the class raises or lets through.  An f-string is kept
    as its pieces, so that an interpolated value stays a value. *)
Inductive piece : Type :=
| Lit (s : string)
| Interp (v : json).

Inductive exn : Type :=
| NotImplementedError (msg : string)
| ValueError (msg : list piece)
| KeyError (key : string)
| TypeError
| AttributeError
| AssertionError
| RecursionError.

Inductive outcome (A : Type) : Type :=
| Ok (a : A)
| Raise (e : exn).
Arguments Ok {A} a.
Arguments Raise {A} e.

Definition obind {A B : Type} (o : outcome A) (k : A -> outcome B) : outcome B :=
  match o with
  | Ok a => k a
  | Raise e => Raise e
  end.

(** [bool(v)]. *)
Definition truthy (v : json) : bool :=
  match v with
  | JNull => false
  | JBool b => b
  | JInt n => negb (Z.eqb n 0)
  | JFloat m _ => negb (Z.eqb m 0)
  | JStr s => negb (String.eqb s "")
  | JList l => match l with [] => false | _ => true end
  | JDict d => match d with [] => false | _ => true end
  end.

(** *** Dictionaries in insertion order *)

Fixpoint dict_get {V : Type} (d : list (string * V)) (k : string) : option V :=
  match d with
  | [] => None
  | (k', v) :: r => if String.eqb k k' then Some v else dict_get r k
  end.

Definition dict_has {V : Type} (d : list (string * V)) (k : string) : bool :=
  match dict_get d k with Some _ => true | None => false end.

(** [d[k] = v]: an existing key keeps its position. *)
Fixpoint dict_set {V : Type} (k : string) (v : V) (d : list (string * V))
  : list (string * V) :=
  match d with
  | [] => [(k, v)]
  | (k', v') :: r =>
      if String.eqb k k' then (k, v) :: r else (k', v') :: dict_set k v r
  end.

(** [dict(pairs)] and [d.update(pairs)]. *)
Definition dict_update {V : Type} (d : list (string * V)) (pairs : list (string * V))
  : list (string * V) :=
  fold_left (fun acc kv => dict_set (fst kv) (snd kv) acc) pairs d.

Definition dict_of {V : Type} (pairs : list (string * V)) : list (string * V) :=
  dict_update [] pairs.

Definition keys {V : Type} (d : list (string * V)) : list string := map fst d.
Definition values {V : Type} (d : list (string * V)) : list V := map snd d.

(** *** Strings *)

(** [s.split(sep)] for a one-character separator. *)
Fixpoint split (sep : ascii) (s : string) : list string :=
  match s with
  | EmptyString => [""]
  | String c s' =>
      if Ascii.eqb c sep then "" :: split sep s'
      else match split sep s' with
           | [] => [String c ""]
           | w :: ws => String c w :: ws
           end
  end.

(** [path[0]], [path[-1]] and [path[1:]] on the result of a split, which
    is never empty. *)
Definition first (path : list string) : string := List.hd "" path.
Definition final (path : list string) : string := List.last path "".
Definition rest (path : list string) : list string := List.tl path.

(** [sep.join(l)]. *)
Fixpoint join (sep : string) (l : list string) : string :=
  match l with
  | [] => ""
  | [x] => x
  | x :: r => x +:+ sep +:+ join sep r
  end.

(** [s.isascii()]: a text is a string of bytes, the UTF-8 form of a
    [str], and an ASCII character is a byte whose eighth bit is not
    set. *)
Definition isascii_char (c : ascii) : bool :=
  let 'Ascii _ _ _ _ _ _ _ b := c in negb b.

Fixpoint isascii (s : string) : bool :=
  match s with
  | EmptyString => true
  | String c s' => isascii_char c && isascii s'
  end.

(** [s.lower()] on ASCII text: the letters [A-Z] are lower-cased and
    every other character is kept. *)
Definition lower_ascii (c : ascii) : ascii :=
  let n := nat_of_ascii c in
  if (65 <=? n)%nat && (n <=? 90)%nat then ascii_of_nat (n + 32) else c.

Fixpoint lower_ascii_text (s : string) : string :=
  match s with
  | EmptyString => EmptyString
  | String c s' => String (lower_ascii c) (lower_ascii_text s')
  end.

(** On a text that is not ASCII, [str.lower] applies the case mapping of
    the Unicode character database of the interpreter.  The mapping is
    no code of this repository: it is taken as it is, as a function of
    the whole text, and every statement holds whatever it is. *)
Class Unicode := unicode_lower : string -> string.

(** [s.lower()]. *)
Definition lower {unicode : Unicode} (s : string) : string :=
  if isascii s then lower_ascii_text s else unicode_lower s.

(** [p in s] on two strings. *)
Fixpoint is_infix (p s : string) : bool :=
  String.prefix p s ||
  match s with
  | EmptyString => false
  | String _ s' => is_infix p s'
  end.

(** *** Operators on a JSON value *)

(** [key in v] for a string [key]. *)
Definition contains (key : string) (v : json) : outcome bool :=
  match v with
  | JDict d => Ok (dict_has d key)
  | JList l =>
      Ok (existsb (fun x => match x with JStr s => String.eqb s key | _ => false end) l)
  | JStr s => Ok (is_infix key s)
  | _ => Raise TypeError
  end.

(** [v[key]] for a string [key]: only a dictionary can be indexed by a
    string. *)
Definition getitem (v : json) (key : string) : outcome json :=
  match v with
  | JDict d =>
      match dict_get d key with
      | Some x => Ok x
      | None => Raise (KeyError key)
      end
  | _ => Raise TypeError
  end.

(** [v.get(key, default)]: only a dictionary has the method. *)
Definition get (v : json) (key : string) (default : json) : outcome json :=
  match v with
  | JDict d =>
      match dict_get d key with
      | Some x => Ok x
      | None => Ok default
      end
  | _ => Raise AttributeError
  end.

(** [isinstance(v, list)]. *)
Definition is_list (v : json) : bool :=
  match v with JList _ => true | _ => false end.

(** [v == s] for a string [s]. *)
Definition eq_str (v : json) (s : string) : bool :=
  match v with JStr s' => String.eqb s' s | _ => false end.

(** [v in l] for a list of strings [l]. *)
Definition in_strs (v : json) (l : list string) : bool :=
  existsb (eq_str v) l.

(** *** Object identity

    The class tests [self.context is self.schema].  A schema document is
    a tree, so an object inside it is identified by the allocation it
    belongs to ([base]) and the keys that lead to it ([path]); the same
    value reached twice along the same keys is the same object, and a
    dictionary literal is a new allocation. *)
Record obj : Type := Obj { base : nat; path : list string; val : json }.

Definition is_ (a b : obj) : bool :=
  Nat.eqb (base a) (base b) && bool_decide (path a = path b).

(** [o[key]] as an object: the entry of [o] under [key]. *)
Definition sub (o : obj) (key : string) : outcome obj :=
  obind (getitem (val o) key) (fun x => Ok (Obj (base o) (path o ++ [key]) x)).

End Py.

Import Py.

(** ** The class and its state *)

(** An instance: [oid] is the identity of the instance itself, [parent]
    the identity of the instance that made it. *)
Record JSONSchema : Type := Instance_
  { oid : nat;
    schema : obj;
    context : obj;
    parent : option nat;
    name : option string }.

(** What a call can change: the allocator of identities and the class
    attribute [_cached_references], one dictionary for the whole process. *)
Record state : Type := State
  { next_id : nat;
    _cached_references : gmap string JSONSchema }.

(** A method call: it reads and writes the state and returns or raises. *)
Definition M (A : Type) : Type := state -> outcome A * state.

Definition ret {A : Type} (a : A) : M A := fun st => (Ok a, st).

Definition raise {A : Type} (e : exn) : M A := fun st => (Raise e, st).

Definition bind {A B : Type} (m : M A) (k : A -> M B) : M B :=
  fun st =>
    match m st with
    | (Ok a, st') => k a st'
    | (Raise e, st') => (Raise e, st')
    end.

Definition lift {A : Type} (o : outcome A) : M A := fun st => (o, st).

Notation "'let!' x ':=' m 'in' k" := (bind m (fun x => k))
  (at level 10, x name, m at level 100, k at level 200).
Notation "'let?' x ':=' o 'in' k" := (obind o (fun x => k))
  (at level 10, x name, o at level 100, k at level 200).

Section Methods.

Context {unicode : Unicode}.

(** A new object: the next identity. *)
Definition alloc : M nat :=
  fun st => (Ok (next_id st), State (S (next_id st)) (_cached_references st)).

Definition cache_store (ref : string) (w : JSONSchema) : M unit :=
  fun st => (Ok tt, State (next_id st) (<[ref := w]> (_cached_references st))).

(** [for x in l: acc = f(acc, x)]. *)
Fixpoint foldM {A B : Type} (f : B -> A -> M B) (l : list A) (acc : B) : M B :=
  match l with
  | [] => ret acc
  | x :: r => let! acc' := f acc x in foldM f r acc'
  end.

(** [[f(x) for x in l]], one element after the other. *)
Fixpoint mapM {A B : Type} (f : A -> M B) (l : list A) : M (list B) :=
  match l with
  | [] => ret []
  | x :: r => let! y := f x in let! ys := mapM f r in ret (y :: ys)
  end.

(** *** Class attributes *)

Definition simple_types : list string :=
  ["boolean"; "null"; "number"; "integer"; "string"].

Definition valid_types : list string := simple_types ++ ["array"; "object"].

Definition traitlet_map : json :=
  JDict [("array", JDict [("cls", JStr "jst.JSONArray")]);
         ("boolean", JDict [("cls", JStr "jst.JSONBoolean")]);
         ("null", JDict [("cls", JStr "jst.JSONNull")]);
         ("number", JDict [("cls", JStr "jst.JSONNumber")]);
         ("integer", JDict [("cls", JStr "jst.JSONInteger")]);
         ("string", JDict [("cls", JStr "jst.JSONString")])].

Definition attr_defaults : list (string * json) :=
  [("title", JStr "");
   ("description", JStr "");
   ("properties", JDict []);
   ("definitions", JDict []);
   ("default", JNull);
   ("examples", JDict []);
   ("type", JStr "object")].

Definition basic_imports : list string :=
  ["import traitlets as T";
   "from . import jstraitlets as jst";
   "from .baseobject import BaseObject"].

(** *** Construction *)

(** [JSONSchema(schema, context, parent, name)]: the context is the one
    given unless it is missing or falsy, and then it is the schema. *)
Definition __init__ (schema : obj) (context : option obj)
    (parent : option nat) (name : option string) : M JSONSchema :=
  let! id := alloc in
  let ctx := match context with
             | Some c => if truthy (val c) then c else schema
             | None => schema
             end in
  ret (Instance_ id schema ctx parent name).

Definition make_child (self : JSONSchema) (schema : obj) (name : option string)
  : M JSONSchema :=
  __init__ schema (Some (context self)) (Some (oid self)) name.

(** *** Attributes with defaults *)

(** [self.attr] for an attribute the instance does not have: the entry of
    the schema, or the default of [attr_defaults], which is an object of
    the class (allocation 0). *)
Definition __getattr__ (self : JSONSchema) (attr : string) : outcome obj :=
  match dict_get attr_defaults attr with
  | Some default =>
      let? v := get (val (schema self)) attr default in
      Ok (if match val (schema self) with JDict d => dict_has d attr | _ => false end
          then Obj (base (schema self)) (path (schema self) ++ [attr]) v
          else Obj 0 [attr] v)
  | None => Raise AttributeError
  end.

Definition type_ (self : JSONSchema) : outcome json :=
  let? t := __getattr__ self "type" in Ok (val t).

(** *** Classification *)

Definition is_root (self : JSONSchema) : bool := is_ (context self) (schema self).

Definition is_reference (self : JSONSchema) : outcome bool :=
  contains "$ref" (val (schema self)).

Definition is_trait (self : JSONSchema) : outcome bool :=
  let? t := type_ self in
  if negb (eq_str t "object")
  then let? r := is_reference self in Ok (negb r)
  else Ok false.

Definition is_object (self : JSONSchema) : outcome bool :=
  let? t := type_ self in
  if eq_str t "object"
  then let? r := is_reference self in Ok (negb r)
  else Ok false.

(** *** Names *)

Definition classname (self : JSONSchema) : outcome string :=
  if match name self with Some s => negb (String.eqb s "") | None => false end
  then Ok (default "" (name self))
  else if is_root self then Ok "RootInstance"
  else
    let? r := is_reference self in
    if r then
      let? ref := getitem (val (schema self)) "$ref" in
      match ref with
      | JStr s => Ok (final (split "/" s))
      | _ => Raise AttributeError
      end
    else Raise (NotImplementedError "Anonymous class name").

Definition modulename (self : JSONSchema) : outcome string :=
  let? c := classname self in Ok (lower c).

Definition filename (self : JSONSchema) : outcome string :=
  let? m := modulename self in Ok (m +:+ ".py").

Definition baseclass (self : JSONSchema) : string := "BaseObject".

Definition import_statement (self : JSONSchema) : outcome string :=
  let? m := modulename self in
  let? c := classname self in
  Ok ("from ." +:+ m +:+ " import " +:+ c).

(** *** Children of a node *)

(** [{key(name): self.make_child(val, name=...) for name, val in d.items()}]
    over the entries of the attribute [attr], which has to be a
    dictionary to have [items]. *)
Definition wrapped (self : JSONSchema) (attr : string)
    (key : string -> string) (named : string -> option string)
  : M (list (string * JSONSchema)) :=
  let! entries := lift (__getattr__ self attr) in
  match val entries with
  | JDict d =>
      foldM (fun acc kv =>
               let! child := make_child self
                               (Obj (base entries) (path entries ++ [fst kv]) (snd kv))
                               (named (fst kv)) in
               ret (dict_set (key (fst kv)) child acc))
            d []
  | _ => raise AttributeError
  end.

Definition wrapped_definitions (self : JSONSchema) : M (list (string * JSONSchema)) :=
  wrapped self "definitions" lower Some.

Definition wrapped_properties (self : JSONSchema) : M (list (string * JSONSchema)) :=
  wrapped self "properties" (fun n => n) (fun _ => None).

(** *** References *)

(** [schema = self.context; for key in keys: schema = schema[key]]. *)
Fixpoint walk (schema : obj) (keys : list string) : outcome obj :=
  match keys with
  | [] => Ok schema
  | key :: r => let? s := sub schema key in walk s r
  end.

(** [ref in self._cached_references]: a list or a dictionary cannot be
    hashed, and only a string can be a key of the cache. *)
Definition cache_lookup (ref : json) : M (option JSONSchema) :=
  fun st =>
    match ref with
    | JList _ | JDict _ => (Raise TypeError, st)
    | JStr s => (Ok (_cached_references st !! s), st)
    | _ => (Ok None, st)
    end.

Definition get_reference (self : JSONSchema) (ref : json) (cache : bool)
  : M JSONSchema :=
  let! hit := (if cache then cache_lookup ref else ret None) in
  match hit with
  | Some w => ret w
  | None =>
      match ref with
      | JStr s =>
          let path := split "/" s in
          let name := final path in
          if negb (String.eqb (first path) "#")
          then raise (ValueError [Lit "Unrecognized $ref format: '"; Interp ref; Lit "'"])
          else
            match walk (context self) (rest path) with
            | Raise (KeyError _) =>
                raise (ValueError [Lit "$ref='"; Interp ref;
                                   Lit "' not present in the schema"])
            | Raise e => raise e
            | Ok schema =>
                let! wrapped_schema := make_child self schema (Some name) in
                let! _ := (if cache then cache_store s wrapped_schema else ret tt) in
                ret wrapped_schema
            end
      | _ => raise AttributeError
      end
  end.

(** ** Code generation *)

(** An argument of [construct_function_call]: a value, printed with
    [repr], or a [Variable], printed as its name. *)
Inductive pyarg : Type :=
| Repr (v : json)
| Variable_ (name : string).

Section Generation.

(** [utils.construct_function_call(name, *args, **kwargs)], which builds
    the text of a call. *)
Variable construct_function_call :
  string -> list pyarg -> list (string * pyarg) -> string.

(** [jinja2.Template(OBJECT_TEMPLATE).render(cls=...)] on what the
    template reads of [cls]: the imports, the class name, the base class
    and the code of each property.  [None] is Jinja's undefined value. *)
Variable render :
  option (list string) -> option string -> string ->
  list (string * option string) -> string.

(** The text of the two files shipped with the package. *)
Variable jstraitlets_py : string.
Variable baseobject_py : string.

(** [construct_function_call(info['cls'], *info.get('args', []),
    **info.get('kwargs', {}))]. *)
Definition call_info (info : json) : outcome string :=
  let? cls := getitem info "cls" in
  let? args := get info "args" (JList []) in
  let? kwargs := get info "kwargs" (JDict []) in
  match cls, args, kwargs with
  | JStr c, JList a, JDict k =>
      Ok (construct_function_call c (map Repr a)
            (map (fun kv => (fst kv, Repr (snd kv))) k))
  | _, _, _ => Raise TypeError
  end.

(** The property [trait_code].  [fuel] bounds the depth of the calls:
    Python raises [RecursionError] when its stack is used up. *)
Fixpoint trait_code (fuel : nat) (self : JSONSchema) : M string :=
  match fuel with
  | O => raise RecursionError
  | S fuel' =>
      let! typecode := lift (type_ self) in
      let! has_not := lift (contains "not" (val (schema self))) in
      if has_not then raise (NotImplementedError "'not' keyword") else
      let! has_ref := lift (contains "$ref" (val (schema self))) in
      if has_ref then
        let! r := lift (getitem (val (schema self)) "$ref") in
        let! ref := get_reference self r true in
        let! o := lift (is_object ref) in
        if o then
          let! c := lift (classname ref) in
          ret ("T.Instance(" +:+ c +:+ ")")
        else trait_code fuel' ref
      else
      let! has_anyOf := lift (contains "anyOf" (val (schema self))) in
      if has_anyOf then raise (NotImplementedError "'anyOf' keyword") else
      let! has_allOf := lift (contains "allOf" (val (schema self))) in
      if has_allOf then raise (NotImplementedError "'allOf' keyword") else
      let! has_oneOf := lift (contains "oneOf" (val (schema self))) in
      if has_oneOf then raise (NotImplementedError "'oneOf' keyword") else
      let! has_enum := lift (contains "enum" (val (schema self))) in
      if has_enum then
        let! enum := lift (getitem (val (schema self)) "enum") in
        ret (construct_function_call "jst.JSONEnum" [Repr enum] [])
      else if in_strs typecode simple_types then
        match typecode with
        | JStr t =>
            let! info := lift (getitem traitlet_map t) in
            lift (call_info info)
        | _ => raise TypeError
        end
      else if eq_str typecode "array" then
        let! items := lift (sub (schema self) "items") in
        if is_list (val items)
        then raise (NotImplementedError "'items' keyword as list")
        else
          let! child := make_child self items None in
          let! itemtype := trait_code fuel' child in
          ret (construct_function_call "jst.JSONArray" [Variable_ itemtype] [])
      else if eq_str typecode "object" then
        let! c := lift (classname self) in
        ret (construct_function_call "jst.JSONInstance" [Repr (JStr c)] [])
      else
        match typecode with
        | JList typs =>
            let! codes :=
              mapM (fun typ =>
                      let! a := alloc in
                      let! child := make_child self (Obj a [] (JDict [("type", typ)])) None in
                      trait_code fuel' child)
                   typs in
            ret (construct_function_call "jst.JSONUnion"
                   [Variable_ ("[" +:+ join ", " codes +:+ "]")] [])
        | _ =>
            raise (ValueError [Lit "unrecognized type identifier: "; Interp typecode])
        end
  end.

(** *** Imports *)

(** The property [imports]: the loop over the wrapped properties. *)
Definition imports (self : JSONSchema) : M (list string) :=
  let! props := wrapped_properties self in
  foldM (fun acc o =>
           let! r := lift (is_reference o) in
           if r then
             let! code := lift (getitem (val (schema o)) "$ref") in
             let! ref := get_reference self code true in
             let! b := lift (is_object ref) in
             if b then
               let! stmt := lift (import_statement ref) in
               ret (acc ++ [stmt])
             else ret acc
           else ret acc)
        (values props) basic_imports.

(** The property [module_imports]. *)
Definition module_imports (self : JSONSchema) : M (list string) :=
  let! defs := wrapped_definitions self in
  foldM (fun acc o =>
           let! b := lift (is_object o) in
           if b then
             let! stmt := lift (import_statement o) in
             ret (acc ++ [stmt])
           else ret acc)
        (values defs) [].

(** *** Files *)

(** An attribute read by the template, [cls.x]: Jinja reads it with
    [getattr] and goes on with its undefined value when that raises
    [AttributeError]; any other exception leaves the template. *)
Definition template_attr {A : Type} (m : M A) : M (option A) :=
  fun st =>
    match m st with
    | (Ok a, st') => (Ok (Some a), st')
    | (Raise AttributeError, st') => (Ok None, st')
    | (Raise e, st') => (Raise e, st')
    end.

(** [object_code]: the template reads [cls.imports], [cls.classname],
    [cls.baseclass], calls [cls.wrapped_properties()] and reads the
    [trait_code] of each property, in this order. *)
Definition object_code (fuel : nat) (self : JSONSchema) : M string :=
  let! imps := template_attr (imports self) in
  let! c := template_attr (lift (classname self)) in
  let! props := wrapped_properties self in
  let! fields :=
    mapM (fun np =>
            let! code := template_attr (trait_code fuel (snd np)) in
            ret (fst np, code))
         props in
  ret (render imps c (baseclass self) fields).

Definition module_spec (fuel : nat) (self : JSONSchema) : M (list (string * string)) :=
  if negb (is_root self) then raise AssertionError else
  let! submodroot := lift (let? c := classname self in Ok (lower c)) in
  let! fname := lift (filename self) in
  let! code := object_code fuel self in
  let modspec := dict_of [("jstraitlets.py", jstraitlets_py);
                          ("baseobject.py", baseobject_py);
                          (fname, code)] in
  let! stmt := lift (import_statement self) in
  let! mods := module_imports self in
  let modspec := dict_set "__init__.py" (join (String "010" "") (stmt :: mods)) modspec in
  let! defs := wrapped_definitions self in
  let! files :=
    foldM (fun acc o =>
             let! b := lift (is_object o) in
             if b then
               let! f := lift (filename o) in
               let! c := object_code fuel o in
               ret (dict_set f c acc)
             else ret acc)
          (values defs) [] in
  ret (dict_update modspec files).

End Generation.

End Methods.

(** ** The conditions of the specification

    The specification names the failures; the class raises Python's
    exceptions.  [condition_of] reads an exception as the condition it
    stands for, by the message the source gives it. *)

Inductive condition : Type :=
| NotSupported (keyword : string)
| InvalidReference (ref : json)
| UnresolvedReference (ref : json)
| UndefinedClassname
| UnrecognizedType (value : json).

Definition keyword_message (keyword : string) : string :=
  "'" +:+ keyword +:+ "' keyword".

Definition invalid_reference (ref : json) : exn :=
  ValueError [Lit "Unrecognized $ref format: '"; Interp ref; Lit "'"].

Definition unresolved_reference (ref : json) : exn :=
  ValueError [Lit "$ref='"; Interp ref; Lit "' not present in the schema"].

Definition unrecognized_type (value : json) : exn :=
  ValueError [Lit "unrecognized type identifier: "; Interp value].

Definition condition_of (e : exn) : option condition :=
  match e with
  | NotImplementedError msg =>
      if String.eqb msg "Anonymous class name" then Some UndefinedClassname
      else if String.eqb msg "'items' keyword as list" then Some (NotSupported "items-as-list")
      else option_map NotSupported
             (find (fun k => String.eqb msg (keyword_message k))
                   ["not"; "anyOf"; "allOf"; "oneOf"])
  | ValueError [Lit l; Interp v; Lit r] =>
      if String.eqb l "Unrecognized $ref format: '" && String.eqb r "'"
      then Some (InvalidReference v)
      else if String.eqb l "$ref='" && String.eqb r "' not present in the schema"
      then Some (UnresolvedReference v)
      else None
  | ValueError [Lit l; Interp v] =>
      if String.eqb l "unrecognized type identifier: "
      then Some (UnrecognizedType v)
      else None
  | _ => None
  end.

(** ** Documents to run the class on *)

Module Sample.

(** Modelled from the spec: [utils.construct_function_call] and
    [utils.Variable] are missing from the sources, and the specification
    says of the result only that it is a call of a named type on its
    arguments.  This instance prints [name(arg, ..., key=arg)], a string
    between quotes and a [Variable] as its name.  It serves to run the
    class on documents; the theorems hold for every such function. *)
Definition show (a : pyarg) : string :=
  match a with
  | Repr (JStr s) => "'" +:+ s +:+ "'"
  | Repr _ => "<value>"
  | Variable_ n => n
  end.

Definition construct_function_call (n : string) (args : list pyarg)
    (kwargs : list (string * pyarg)) : string :=
  n +:+ "(" +:+
  join ", " (map show args ++ map (fun kv => fst kv +:+ "=" +:+ show (snd kv)) kwargs)
  +:+ ")".

Definition newline : string := String "010" "".

(** An instance of the rendering of [OBJECT_TEMPLATE], which is the
    work of Jinja: the imports, the class header and one line for each
    property; an undefined value prints as nothing. *)
Definition render (imps : option (list string)) (c : option string) (b : string)
    (fields : list (string * option string)) : string :=
  String.concat "" (map (fun i => newline +:+ i) (default [] imps))
  +:+ newline +:+ newline +:+ "class " +:+ default "" c +:+ "(" +:+ b +:+ "):"
  +:+ String.concat ""
        (map (fun f => newline +:+ "    " +:+ fst f +:+ " = " +:+ default "" (snd f))
             fields).

(** The objects of the examples, in the order of their allocation: the
    class (0), a document (1) and its root (2), a dictionary literal
    (3) and the child made on it (4), a second document (5) and its
    root (6).  Nothing is cached at the start. *)
Definition start : state := State 7 ∅.

(** [JSONSchema(doc)]. *)
Definition root_of (doc : json) : JSONSchema :=
  Instance_ 2 (Obj 1 [] doc) (Obj 1 [] doc) None None.

(** [root.make_child(v)] for a dictionary literal [v]. *)
Definition child_of (doc v : json) : JSONSchema :=
  Instance_ 4 (Obj 3 [] v) (Obj 1 [] doc) (Some 2) None.

(** [JSONSchema(doc)] for the second document of the process. *)
Definition second_root_of (doc : json) : JSONSchema :=
  Instance_ 6 (Obj 5 [] doc) (Obj 5 [] doc) None None.

(** The document of the specification's example. *)
Definition two_definitions : json :=
  JDict [("definitions",
          JDict [("A", JDict [("type", JStr "object"); ("properties", JDict [])]);
                 ("B", JDict [("type", JStr "string")])])].

(** A document whose only definition carries [not]. *)
Definition negated_definition : json :=
  JDict [("definitions", JDict [("B", JDict [("not", JDict [])])])].

(** A document with an object, an integer and a definition whose key is
    the empty string, and two properties that refer to the first two. *)
Definition foo_bar : json :=
  JDict [("definitions",
          JDict [("Foo", JDict [("type", JStr "object")]);
                 ("Bar", JDict [("type", JStr "integer")]);
                 ("", JDict [("type", JStr "object")])]);
         ("properties",
          JDict [("foo", JDict [("$ref", JStr "#/definitions/Foo")]);
                 ("bar", JDict [("$ref", JStr "#/definitions/Bar")])])].

Definition other_root : JSONSchema := second_root_of two_definitions.

(** A document with an object [Foo], a definition that only refers to
    [Foo], and two properties: a reference to that definition and an
    array of references to [Foo]. *)
Definition alias_and_array : json :=
  JDict [("definitions",
          JDict [("Foo", JDict [("type", JStr "object")]);
                 ("Alias", JDict [("$ref", JStr "#/definitions/Foo")])]);
         ("properties",
          JDict [("a", JDict [("$ref", JStr "#/definitions/Alias")]);
                 ("l", JDict [("type", JStr "array");
                              ("items", JDict [("$ref", JStr "#/definitions/Foo")])])])].

(** [str.lower] on the texts of the examples, which hold ASCII
    characters and letters of the Latin-1 supplement: in UTF-8 the
    capitals [U+00C0] to [U+00DE], the sign [U+00D7] apart, are the
    byte [195] and a byte from [128] to [158], and the small letter is
    32 further.  [after] says that the byte before is [195]. *)
Fixpoint lower_latin (after : bool) (s : string) : string :=
  match s with
  | EmptyString => EmptyString
  | String c s' =>
      let n := nat_of_ascii c in
      if after
      then String (if (128 <=? n)%nat && (n <=? 158)%nat && negb (n =? 151)%nat
                   then ascii_of_nat (n + 32) else c)
                  (lower_latin false s')
      else String (lower_ascii c) (lower_latin (n =? 195)%nat s')
  end.

Definition unicode : Unicode := lower_latin false.

End Sample.

Section Statements.

Context {unicode : Unicode}.


(** ** The statements of the specification, in the terms of the model *)

(** The composite keywords, and the first of those dispatched after
    [$ref] that a dictionary holds. *)
Definition composite_keywords : list string := ["not"; "anyOf"; "allOf"; "oneOf"].

Definition first_composite (d : list (string * json)) : option string :=
  find (dict_has d) ["anyOf"; "allOf"; "oneOf"].

(** "Any of not, anyOf, allOf, oneOf on a node fails with NotSupported
    naming the keyword, regardless of the other keys". *)
Definition rejects_every_composite
    (cfc : string -> list pyarg -> list (string * pyarg) -> string)
    (fuel : nat) (self : JSONSchema) (st : state) : Prop :=
  forall d kw,
    val (schema self) = JDict d ->
    In kw composite_keywords ->
    dict_has d kw = true ->
    fst (trait_code cfc fuel self st) = Raise (NotImplementedError (keyword_message kw)).

(** The keys dispatched before the type. *)
Definition dispatched_keys : list string :=
  ["not"; "$ref"; "anyOf"; "allOf"; "oneOf"; "enum"].

Definition no_dispatched_key (d : list (string * json)) : Prop :=
  forall k, In k dispatched_keys -> dict_has d k = false.

(** "classname returns the explicit name if one is set". *)
Definition returns_explicit_name (self : JSONSchema) : Prop :=
  forall n, name self = Some n -> classname self = Ok n.

(** No name was given, or an empty one: [if self.name] fails. *)
Definition unnamed (self : JSONSchema) : Prop :=
  name self = None \/ name self = Some "".

(** "A path segment is absent at a step": the keys before it lead to a
    dictionary that does not hold it. *)
Definition absent_segment (root : obj) (keys : list string) : Prop :=
  exists before key after o d,
    keys = before ++ key :: after /\
    walk root before = Ok o /\
    val o = JDict d /\
    dict_get d key = None.

(** The node [w] is what the code [s] resolves to in the document
    [root]. *)
Definition resolves_to (root : obj) (s : string) (w : JSONSchema) : Prop :=
  first (split "/" s) = "#" /\
  walk root (rest (split "/" s)) = Ok (schema w) /\
  name w = Some (final (split "/" s)).

(** The cache was filled from the document [root]. *)
Definition cache_agrees (root : obj) (st : state) : Prop :=
  forall s w, _cached_references st !! s = Some w -> resolves_to root s w.

(** "A well-rooted code fails with UnresolvedReference whenever a path
    segment is absent at any step". *)
Definition fails_when_absent (self : JSONSchema) (s : string) (cache : bool)
    (st : state) : Prop :=
  first (split "/" s) = "#" ->
  absent_segment (context self) (rest (split "/" s)) ->
  fst (get_reference self (JStr s) cache st) = Raise (unresolved_reference (JStr s)).

(** The node a resolution makes when the cache does not answer. *)
Definition resolved (self : JSONSchema) (s : string) (o : obj) (st : state)
  : JSONSchema :=
  Instance_ (next_id st) o
    (if truthy (val (context self)) then context self else o)
    (Some (oid self)) (Some (final (split "/" s))).

(** The type values the last branch of the dispatch is for: none of the
    names of [valid_types], and not a list. *)
Definition code_unrecognized (t : json) : bool :=
  negb (in_strs t simple_types) && negb (eq_str t "array")
  && negb (eq_str t "object") && negb (is_list t).

(** "A type value outside the primitive set, array, object, or a list
    of primitives". *)
Definition list_of_primitives (t : json) : bool :=
  match t with
  | JList l => forallb (fun x => in_strs x simple_types) l
  | _ => false
  end.

Definition spec_unrecognized (t : json) : bool :=
  negb (in_strs t simple_types) && negb (eq_str t "array")
  && negb (eq_str t "object") && negb (list_of_primitives t).

(** "Computing the type representation fails with UnrecognizedType if
    and only if the type value is outside ...", for a node with none of
    the keys dispatched before the type. *)
Definition unrecognized_iff_outside
    (cfc : string -> list pyarg -> list (string * pyarg) -> string)
    (fuel : nat) (self : JSONSchema) (st : state) : Prop :=
  forall d,
    val (schema self) = JDict d ->
    no_dispatched_key d ->
    ((exists v, fst (trait_code cfc fuel self st) = Raise (unrecognized_type v))
     <-> spec_unrecognized (default (JStr "object") (dict_get d "type")) = true).

(** "Each member [m] is dispatched as the node [{'type': m}]": the node
    that the union branch makes for the member [m] in the state [st],
    the child of [self] on a new dictionary. *)
Definition member (self : JSONSchema) (m : json) (st : state) : JSONSchema :=
  let s := Obj (next_id st) [] (JDict [("type", m)]) in
  Instance_ (S (next_id st)) s (if truthy (val (context self)) then context self else s)
    (Some (oid self)) None.

(** The members of a list of types dispatched in turn, each in the state
    that the one before leaves: the codes of all of them, or the failure
    of the first member that fails, after which no member is looked
    at. *)
Fixpoint members
    (cfc : string -> list pyarg -> list (string * pyarg) -> string)
    (fuel : nat) (self : JSONSchema) (ms : list json) (st : state)
  : outcome (list string) * state :=
  match ms with
  | [] => (Ok [], st)
  | m :: r =>
      match trait_code cfc fuel (member self m st)
              (State (S (S (next_id st))) (_cached_references st)) with
      | (Ok code, st1) =>
          match members cfc fuel self r st1 with
          | (Ok codes, st2) => (Ok (code :: codes), st2)
          | (Raise e, st2) => (Raise e, st2)
          end
      | (Raise e, st1) => (Raise e, st1)
      end
  end.

(** The traitlet of a primitive type, as [traitlet_map] gives it. *)
Definition primitive_class (n : string) : string :=
  match getitem traitlet_map n with
  | Ok (JDict [(_, JStr c)]) => c
  | _ => ""
  end.

(** An exception other than a [ValueError]. *)
Definition plain (e : exn) : Prop :=
  match e with ValueError _ => False | _ => True end.

(** An exception that, when it reports an unrecognized type, reports a
    value of the last branch of the dispatch. *)
Definition sound_report (e : exn) : Prop :=
  forall v, e = unrecognized_type v -> code_unrecognized v = true.

(** The exceptions a call can raise. *)
Definition raises_only {A : Type} (P : exn -> Prop) (m : M A) : Prop :=
  forall st e st', m st = (Raise e, st') -> P e.

(** "The import list is exactly the two fixed support imports, followed
    by one import for [some of the] properties". *)
Definition two_fixed_imports (self : JSONSchema) (st : state) : Prop :=
  exists a b stmts props,
    fst (imports self st) = Ok (a :: b :: stmts) /\
    fst (wrapped_properties self st) = Ok props /\
    (List.length stmts <= List.length props)%nat.

(** A schema value that [is_object] holds of. *)
Definition object_typed (v : json) : bool :=
  match v with
  | JDict d =>
      negb (dict_has d "$ref")
      && eq_str (default (JStr "object") (dict_get d "type")) "object"
  | _ => false
  end.

(** The import of the class a code names. *)
Definition import_of (s : string) : string :=
  "from ." +:+ lower (final (split "/" s)) +:+ " import " +:+ final (split "/" s).

(** What a property adds to the imports: the import of its target when
    the property is a reference and the target, in the document [root],
    is an object. *)
Definition property_import (root : obj) (p : json) : list string :=
  match p with
  | JDict pd =>
      match dict_get pd "$ref" with
      | Some (JStr s) =>
          match walk root (rest (split "/" s)) with
          | Ok o => if object_typed (val o) then [import_of s] else []
          | Raise _ => []
          end
      | _ => []
      end
  | _ => []
  end.

(** A property the loop of [imports] can classify: a dictionary whose
    [$ref], when it has one, is a well-rooted code with a last segment,
    that leads to a dictionary of the document [root]. *)
Definition resolvable (root : obj) (p : json) : Prop :=
  exists pd,
    p = JDict pd /\
    forall r, dict_get pd "$ref" = Some r ->
      exists s o od,
        r = JStr s /\ first (split "/" s) = "#" /\
        walk root (rest (split "/" s)) = Ok o /\
        val o = JDict od /\ final (split "/" s) <> "".

(** No [$ref] is met on the way from a schema value to its trait: the
    value is a dictionary without [$ref], and so are its [items], when
    it has items that are not a list. *)
Inductive refers_nowhere : json -> Prop :=
| refers_nowhere_dict d :
    dict_has d "$ref" = false ->
    (forall i, dict_get d "items" = Some i -> is_list i = true \/ refers_nowhere i) ->
    refers_nowhere (JDict d).

(** A property that refers at most once: no [$ref] is met in it, or it
    is itself a [$ref] whose code is well rooted, ends in a name and
    leads, in the document [root], to a definition in which no [$ref]
    is met. *)
Definition refers_at_most_once (root : obj) (p : json) : Prop :=
  refers_nowhere p \/
  exists pd s o,
    p = JDict pd /\ dict_get pd "$ref" = Some (JStr s) /\
    first (split "/" s) = "#" /\ final (split "/" s) <> "" /\
    walk root (rest (split "/" s)) = Ok o /\ refers_nowhere (val o).

(** One turn of the loop of [imports]. *)
Definition import_step (self : JSONSchema) (acc : list string) (o : JSONSchema)
  : M (list string) :=
  let! r := lift (is_reference o) in
  if r then
    let! code := lift (getitem (val (schema o)) "$ref") in
    let! ref := get_reference self code true in
    let! b := lift (is_object ref) in
    if b then
      let! stmt := lift (import_statement ref) in
      ret (acc ++ [stmt])
    else ret acc
  else ret acc.

(** A schema value of type ["string"]. *)
Definition string_typed (v : json) : Prop :=
  exists d, v = JDict d /\ dict_get d "type" = Some (JStr "string").

(** [JSONSchema(doc)]: the instance [id] on the document [doc], which is
    its own context. *)
Definition root_instance (id : nat) (doc : obj) : JSONSchema :=
  Instance_ id doc doc None None.

(** The child that [wrapped_definitions] makes, as instance [id], for
    the definition [k] of the node [self]. *)
Definition definition_child (self : JSONSchema) (k : string) (v : json) (id : nat)
  : JSONSchema :=
  let s := Obj (base (schema self)) ((path (schema self) ++ ["definitions"]) ++ [k]) v in
  Instance_ id s (if truthy (val (context self)) then context self else s)
    (Some (oid self)) (Some k).

(** The manifest of the example: the import of the root and of [A]. *)
Definition manifest_of_A : string :=
  join (String "010" "") ["from .rootinstance import RootInstance"; "from .a import A"].

(** The call [m'] does what the call [m] does, whenever [m] does not run
    out of stack. *)
Definition steady {A : Type} (m m' : M A) : Prop :=
  forall st r st', m st = (r, st') -> r <> Raise RecursionError -> m' st = (r, st').

End Statements.

(** ** Further statements about the class *)

(** The context of the children of [self]: its own context unless that
    is falsy, as [__init__] has it. *)
Definition child_context (self : JSONSchema) (s : obj) : obj :=
  if truthy (val (context self)) then context self else s.

(** The children that [wrapped] makes for the entries [d] of the
    attribute [entries], in the order of the entries, from the identity
    [id] on. *)
Fixpoint children (self : JSONSchema) (entries : obj)
    (key : string -> string) (named : string -> option string)
    (d : list (string * json)) (id : nat) : list (string * JSONSchema) :=
  match d with
  | [] => []
  | (k, v) :: r =>
      let s := Obj (base entries) (path entries ++ [k]) v in
      (key k, Instance_ id s (child_context self s) (Some (oid self)) (named k))
      :: children self entries key named r (S id)
  end.

(** The state [st'] comes after [st]: identities are only added, and no
    entry of the cache is taken out or replaced. *)
Definition later (st st' : state) : Prop :=
  (next_id st <= next_id st')%nat /\
  _cached_references st ⊆ _cached_references st'.

(** Every run of [m] ends in a state related by [R] to its start. *)
Definition keeps {A : Type} (R : state -> state -> Prop) (m : M A) : Prop :=
  forall st r st', m st = (r, st') -> R st st'.

(** The exceptions that are no condition of the specification and that
    [trait_code] lets through. *)
Definition raw_error (e : exn) : bool :=
  match e with
  | KeyError k => String.eqb k "items"
  | TypeError | AttributeError | RecursionError => true
  | _ => false
  end.

(** An exception that is a condition of the specification or one of the
    raw errors. *)
Definition foreseen (e : exn) : Prop :=
  (exists c, condition_of e = Some c) \/ raw_error e = true.

(** The object [o] lies in the document [root], at [root] or below. *)
Definition inside (o root : obj) : Prop :=
  base o = base root /\ exists p, path o = path root ++ p.

(** A document whose definition [A] refers to itself. *)
Definition document_that_refers_to_itself : json :=
  JDict [("definitions", JDict [("A", JDict [("$ref", JStr "#/definitions/A")])]);
         ("properties", JDict [("a", JDict [("$ref", JStr "#/definitions/A")])])].

(** The import of the definition [k] whose schema is [v], when it is an
    object. *)
Definition definition_import {unicode : Unicode} (kv : string * json)
  : list string :=
  if object_typed (snd kv)
  then ["from ." +:+ lower (fst kv) +:+ " import " +:+ fst kv]
  else [].

(** The string has the character [c]. *)
Fixpoint has_char (c : ascii) (s : string) : bool :=
  match s with
  | EmptyString => false
  | String c' s' => Ascii.eqb c' c || has_char c s'
  end.

(** The cache of a run on the one document [root]: every cached node
    is what its code resolves to in [root], and is a node of [root]. *)
Definition cache_of (root : obj) (st : state) : Prop :=
  forall s w,
    _cached_references st !! s = Some w -> resolves_to root s w /\ context w = root.

(** From a state where [P] holds, the call [m] ends in a state where
    [P] holds, and what it returns has [Q]. *)
Definition triple {A : Type} (P : state -> Prop) (m : M A) (Q : A -> Prop) : Prop :=
  forall st r st', P st -> m st = (r, st') -> P st' /\ forall a, r = Ok a -> Q a.
(** ** Calls step by step *)

Lemma bind_ok {A B : Type} (m : M A) (k : A -> M B) st a st1 :
  m st = (Ok a, st1) -> bind m k st = k a st1.
Proof. intros H. unfold bind. now rewrite H. Qed.

Lemma bind_raise {A B : Type} (m : M A) (k : A -> M B) st e st1 :
  m st = (Raise e, st1) -> bind m k st = (Raise e, st1).
Proof. intros H. unfold bind. now rewrite H. Qed.

Lemma bind_lift {A B : Type} (o : outcome A) (k : A -> M B) st :
  bind (lift o) k st = match o with Ok a => k a st | Raise e => (Raise e, st) end.
Proof. now destruct o. Qed.

Lemma bind_bind {A B C : Type} (m : M A) (f : A -> M B) (g : B -> M C) st :
  bind (bind m f) g st = bind m (fun x => bind (f x) g) st.
Proof. unfold bind. now destruct (m st) as [[a|e] st1]. Qed.

Lemma dict_has_get {V : Type} (d : list (string * V)) k :
  dict_has d k = false <-> dict_get d k = None.
Proof. unfold dict_has. destruct (dict_get d k); split; congruence. Qed.

Lemma is_refl (o : obj) : is_ o o = true.
Proof.
  unfold is_. rewrite Nat.eqb_refl. simpl. now apply bool_decide_eq_true.
Qed.

(** The attribute [type] is the entry of the schema or ["object"]. *)
Lemma type_get (self : JSONSchema) :
  type_ self = get (val (schema self)) "type" (JStr "object").
Proof.
  unfold type_, __getattr__. simpl.
  destruct (val (schema self)); simpl; try reflexivity.
  unfold dict_has. destruct (dict_get d "type"); reflexivity.
Qed.

Lemma type_dict (self : JSONSchema) d :
  val (schema self) = JDict d ->
  type_ self = Ok (default (JStr "object") (dict_get d "type")).
Proof.
  intros H. rewrite type_get, H. simpl. now destruct (dict_get d "type").
Qed.

Lemma contains_dict (self : JSONSchema) d k :
  val (schema self) = JDict d -> contains k (val (schema self)) = Ok (dict_has d k).
Proof. now intros ->. Qed.

(** ** Classification *)

(** C9 - On a node whose schema is a dictionary the three predicates are
    defined and exactly one holds: [is_reference] holds when the
    dictionary has the key [$ref], and otherwise the type, ["object"]
    when the key [type] is missing, decides between [is_object] and
    [is_trait]. *)
Theorem classification_exactly_one (self : JSONSchema) d :
  val (schema self) = JDict d ->
  exists t o r,
    is_trait self = Ok t /\ is_object self = Ok o /\ is_reference self = Ok r /\
    r = dict_has d "$ref" /\
    o = negb r && eq_str (default (JStr "object") (dict_get d "type")) "object" /\
    t = negb r && negb (eq_str (default (JStr "object") (dict_get d "type")) "object") /\
    (Nat.b2n t + Nat.b2n o + Nat.b2n r = 1)%nat.
Proof.
  intros H. unfold is_trait, is_object, is_reference.
  rewrite (type_dict self d H), H. simpl.
  destruct (eq_str _ "object"), (dict_has d "$ref"); simpl;
    repeat eexists; reflexivity.
Qed.

Lemma classification_exactly_one_witness :
  exists t o r,
    is_trait (Sample.root_of Sample.two_definitions) = Ok t /\
    is_object (Sample.root_of Sample.two_definitions) = Ok o /\
    is_reference (Sample.root_of Sample.two_definitions) = Ok r /\
    (Nat.b2n t + Nat.b2n o + Nat.b2n r = 1)%nat.
Proof.
  destruct (classification_exactly_one (Sample.root_of Sample.two_definitions) _ eq_refl)
    as (t & o & r & Ht & Ho & Hr & _ & _ & _ & Hone).
  exists t, o, r. auto.
Defined.

(** ** Class names *)

Lemma classname_named (self : JSONSchema) n :
  name self = Some n -> n <> "" -> classname self = Ok n.
Proof.
  intros H N. unfold classname. rewrite H.
  destruct (String.eqb_spec n ""); [contradiction|reflexivity].
Qed.

Lemma classname_unnamed (self : JSONSchema) :
  unnamed self ->
  classname self =
  if is_root self then Ok "RootInstance"
  else
    let? r := is_reference self in
    if r then
      let? ref := getitem (val (schema self)) "$ref" in
      match ref with
      | JStr s => Ok (final (split "/" s))
      | _ => Raise AttributeError
      end
    else Raise (NotImplementedError "Anonymous class name").
Proof. intros [H|H]; unfold classname; now rewrite H. Qed.

(** C7 - [classname] is the explicit name when it is not empty;
    without such a name it is ["RootInstance"] on the root, and
    otherwise the last segment of the [$ref] string when the schema has
    one, and a [NotImplementedError] ("Anonymous class name") when it
    has none, which is the case of a child made by [make_child] without
    a name from a schema without [$ref]. *)
Theorem classname_cases (self : JSONSchema) :
  (forall n, name self = Some n -> n <> "" -> classname self = Ok n) /\
  (unnamed self -> is_root self = true -> classname self = Ok "RootInstance") /\
  (forall d r, unnamed self -> is_root self = false ->
     val (schema self) = JDict d -> dict_get d "$ref" = Some (JStr r) ->
     classname self = Ok (final (split "/" r))) /\
  (forall d, unnamed self -> is_root self = false ->
     val (schema self) = JDict d -> dict_get d "$ref" = None ->
     classname self = Raise (NotImplementedError "Anonymous class name")
     /\ condition_of (NotImplementedError "Anonymous class name") = Some UndefinedClassname) /\
  (forall s d st child st',
     make_child self s None st = (Ok child, st') ->
     is_root child = false ->
     val s = JDict d -> dict_get d "$ref" = None ->
     classname child = Raise (NotImplementedError "Anonymous class name")).
Proof.
  split; [apply classname_named|].
  split; [intros U R; now rewrite (classname_unnamed _ U), R|].
  split.
  { intros d r U R H Hr. rewrite (classname_unnamed _ U), R.
    unfold is_reference. rewrite H. simpl. unfold dict_has. now rewrite Hr. }
  split.
  { intros d U R H Hr. split; [|reflexivity].
    rewrite (classname_unnamed _ U), R.
    unfold is_reference. rewrite H. simpl. unfold dict_has. now rewrite Hr. }
  intros s d st child st' Hc R H Hr.
  unfold make_child, __init__, bind, alloc, ret in Hc. simpl in Hc.
  injection Hc as <- _.
  rewrite classname_unnamed by (now left). rewrite R.
  unfold is_reference. simpl. rewrite H. simpl. unfold dict_has. now rewrite Hr.
Qed.

(** A node named ["Foo"], the root, a reference and an anonymous child. *)
Lemma classname_cases_witness :
  classname (Instance_ 7 (Obj 1 ["definitions"; "Foo"] (JDict [("type", JStr "object")]))
               (Obj 1 [] Sample.foo_bar) (Some 2) (Some "Foo")) = Ok "Foo"
  /\ classname (Sample.root_of Sample.foo_bar) = Ok "RootInstance"
  /\ classname (Sample.child_of Sample.foo_bar (JDict [("$ref", JStr "#/definitions/Foo")]))
     = Ok "Foo"
  /\ classname (Sample.child_of Sample.foo_bar (JDict [("type", JStr "object")]))
     = Raise (NotImplementedError "Anonymous class name").
Proof.
  split.
  { apply (proj1 (classname_cases _) "Foo"); [reflexivity|discriminate]. }
  split.
  { apply (proj1 (proj2 (classname_cases _))); [now left|reflexivity]. }
  split.
  { apply (proj1 (proj2 (proj2 (classname_cases _)))
             [("$ref", JStr "#/definitions/Foo")] "#/definitions/Foo");
      [now left|reflexivity|reflexivity|reflexivity]. }
  apply (proj1 (proj2 (proj2 (proj2 (classname_cases _))))
           [("type", JStr "object")]); [now left|reflexivity|reflexivity|reflexivity].
Defined.

(** C7, as the specification states it, fails on an empty name: the
    definition whose key is the empty string is wrapped with the name
    [""], which [if self.name] takes for no name. *)
Lemma empty_name_is_not_returned :
  exists defs c,
    fst (wrapped_definitions (unicode := Sample.unicode)
           (Sample.root_of Sample.foo_bar) Sample.start) = Ok defs /\
    dict_get defs "" = Some c /\
    name c = Some "" /\
    classname c = Raise (NotImplementedError "Anonymous class name") /\
    ~ returns_explicit_name c.
Proof.
  eexists. eexists. split; [vm_compute; reflexivity|].
  split; [reflexivity|]. split; [reflexivity|]. split; [reflexivity|].
  intros H. specialize (H "" eq_refl). discriminate H.
Qed.


Section Dispatch.

Context {unicode : Unicode}.

Variable construct_function_call :
  string -> list pyarg -> list (string * pyarg) -> string.

(** One step of a call: the next read of the schema is done. *)
Ltac read self H :=
  rewrite ?(type_dict self _ H), ?(contains_dict self _ _ H), ?bind_lift.

Lemma no_dispatched_key_has d k :
  no_dispatched_key d -> In k dispatched_keys -> dict_has d k = false.
Proof. intros H. apply H. Qed.

(** The dispatch of a node that has none of the keys tested before the
    type: it goes on the type alone. *)
Lemma trait_code_on_type fuel self d st :
  val (schema self) = JDict d ->
  no_dispatched_key d ->
  trait_code construct_function_call (S fuel) self st =
  (let typecode := default (JStr "object") (dict_get d "type") in
   if in_strs typecode simple_types then
     match typecode with
     | JStr t =>
         bind (lift (getitem traitlet_map t))
              (fun info => lift (call_info construct_function_call info))
     | _ => raise TypeError
     end
   else if eq_str typecode "array" then
     bind (lift (sub (schema self) "items"))
       (fun items =>
          if is_list (val items)
          then raise (NotImplementedError "'items' keyword as list")
          else
            bind (make_child self items None)
              (fun child =>
                 bind (trait_code construct_function_call fuel child)
                   (fun itemtype =>
                      ret (construct_function_call "jst.JSONArray"
                             [Variable_ itemtype] []))))
   else if eq_str typecode "object" then
     bind (lift (classname self))
       (fun c => ret (construct_function_call "jst.JSONInstance" [Repr (JStr c)] []))
   else
     match typecode with
     | JList typs =>
         bind (mapM (fun typ =>
                       bind alloc (fun a =>
                       bind (make_child self (Obj a [] (JDict [("type", typ)])) None)
                            (fun child => trait_code construct_function_call fuel child)))
                    typs)
           (fun codes =>
              ret (construct_function_call "jst.JSONUnion"
                     [Variable_ ("[" +:+ join ", " codes +:+ "]")] []))
     | _ => raise (unrecognized_type typecode)
     end) st.
Proof.
  intros H N. cbn [trait_code]. read self H.
  rewrite !(no_dispatched_key_has d _ N) by (simpl; tauto).
  reflexivity.
Qed.

(** C10 - A node of type ["array"] that has none of the keys dispatched
    before the type and no ["items"] entry: [trait_code] reads
    [self.schema['items']] without a test and lets the [KeyError] of the
    dictionary through, which is none of the conditions of the
    specification. *)
Theorem array_without_items_raises_KeyError fuel self d st :
  val (schema self) = JDict d ->
  no_dispatched_key d ->
  dict_get d "type" = Some (JStr "array") ->
  dict_get d "items" = None ->
  trait_code construct_function_call (S fuel) self st = (Raise (KeyError "items"), st)
  /\ condition_of (KeyError "items") = None.
Proof.
  intros H N T I. split; [|reflexivity].
  rewrite (trait_code_on_type fuel self d st H N), T. simpl.
  rewrite bind_lift. unfold sub. now rewrite H; simpl; rewrite I.
Qed.

(** C1 - A node with the key [not] fails with the [NotImplementedError]
    of [not], whatever else it holds; a node with neither [not] nor
    [$ref] fails with the one of the first of [anyOf], [allOf] and
    [oneOf] it holds, also next to [enum] and [type].  With [$ref]
    (and no [not]) the reference is followed instead. *)
Theorem composite_keyword_rejected fuel self d st :
  val (schema self) = JDict d ->
  (dict_has d "not" = true ->
   trait_code construct_function_call (S fuel) self st =
   (Raise (NotImplementedError (keyword_message "not")), st)) /\
  (forall kw,
     dict_has d "not" = false -> dict_has d "$ref" = false ->
     first_composite d = Some kw ->
     trait_code construct_function_call (S fuel) self st =
     (Raise (NotImplementedError (keyword_message kw)), st)
     /\ condition_of (NotImplementedError (keyword_message kw)) = Some (NotSupported kw)).
Proof.
  intros H. split.
  - intros N. cbn [trait_code]. read self H. now rewrite N.
  - intros kw N R F. unfold first_composite in F. simpl in F.
    assert (E : trait_code construct_function_call (S fuel) self st =
                (Raise (NotImplementedError (keyword_message kw)), st)).
    { cbn [trait_code]. read self H. rewrite N, R.
      destruct (dict_has d "anyOf"); [now injection F as <-|].
      destruct (dict_has d "allOf"); [now injection F as <-|].
      destruct (dict_has d "oneOf"); [now injection F as <-|discriminate]. }
    split; [exact E|].
    destruct (dict_has d "anyOf"); [now injection F as <-|].
    destruct (dict_has d "allOf"); [now injection F as <-|].
    destruct (dict_has d "oneOf"); [now injection F as <-|discriminate].
Qed.

End Dispatch.

(** A node with [not] next to [$ref], and one with [oneOf] next to
    [enum] and [type]. *)
Lemma composite_keyword_rejected_witness :
  trait_code Sample.construct_function_call 1
    (Sample.child_of Sample.foo_bar
       (JDict [("$ref", JStr "#/definitions/Bar"); ("not", JDict [])]))
    Sample.start
  = (Raise (NotImplementedError "'not' keyword"), Sample.start)
  /\ trait_code Sample.construct_function_call 1
       (Sample.child_of Sample.foo_bar
          (JDict [("type", JStr "string"); ("enum", JList [JStr "a"]);
                  ("oneOf", JList [])]))
       Sample.start
     = (Raise (NotImplementedError "'oneOf' keyword"), Sample.start).
Proof.
  split.
  - apply (proj1 (composite_keyword_rejected Sample.construct_function_call 0
                    (Sample.child_of Sample.foo_bar
                       (JDict [("$ref", JStr "#/definitions/Bar"); ("not", JDict [])]))
                    _ Sample.start eq_refl)).
    reflexivity.
  - apply (proj2 (composite_keyword_rejected Sample.construct_function_call 0
                    (Sample.child_of Sample.foo_bar
                       (JDict [("type", JStr "string"); ("enum", JList [JStr "a"]);
                               ("oneOf", JList [])]))
                    _ Sample.start eq_refl) "oneOf"); reflexivity.
Defined.

(** C1, as the specification states it, fails next to [$ref]: the
    reference to the integer [Bar] is followed and [anyOf] is not
    looked at. *)
Lemma anyOf_beside_ref_is_accepted :
  fst (trait_code Sample.construct_function_call 2
         (Sample.child_of Sample.foo_bar
            (JDict [("$ref", JStr "#/definitions/Bar"); ("anyOf", JList [])]))
         Sample.start)
  = Ok "jst.JSONInteger()"
  /\ ~ rejects_every_composite Sample.construct_function_call 2
         (Sample.child_of Sample.foo_bar
            (JDict [("$ref", JStr "#/definitions/Bar"); ("anyOf", JList [])]))
         Sample.start.
Proof.
  split; [vm_compute; reflexivity|].
  intros H.
  specialize (H _ "anyOf" eq_refl).
  assert (I : In "anyOf" composite_keywords) by (simpl; tauto).
  specialize (H I eq_refl). vm_compute in H. discriminate H.
Qed.

Lemma array_without_items_raises_KeyError_witness :
  trait_code Sample.construct_function_call 1
    (Sample.child_of Sample.foo_bar (JDict [("type", JStr "array")])) Sample.start
  = (Raise (KeyError "items"), Sample.start)
  /\ condition_of (KeyError "items") = None.
Proof.
  apply (array_without_items_raises_KeyError Sample.construct_function_call 0
           (Sample.child_of Sample.foo_bar (JDict [("type", JStr "array")]))
           [("type", JStr "array")] Sample.start eq_refl).
  - intros k Hk. simpl in Hk. now repeat destruct Hk as [<-|Hk].
  - reflexivity.
  - reflexivity.
Defined.

(** ** References *)

Lemma walk_app (root : obj) (l1 l2 : list string) :
  walk root (l1 ++ l2) = obind (walk root l1) (fun o => walk o l2).
Proof.
  revert root. induction l1 as [|k l1 IH]; intros root; simpl; [reflexivity|].
  destruct (sub root k); simpl; [apply IH|reflexivity].
Qed.

(** A walk fails on a missing key or on a value that cannot be indexed
    by a string. *)
Lemma walk_raises (root : obj) (keys : list string) e :
  walk root keys = Raise e -> e = TypeError \/ exists k, e = KeyError k.
Proof.
  revert root. induction keys as [|k keys IH]; intros root; simpl; [discriminate|].
  unfold sub, getitem.
  destruct (val root); simpl; try (intros [= <-]; now left).
  destruct (dict_get d k); simpl; [apply IH|].
  intros [= <-]. right. now exists k.
Qed.

Lemma walk_absent (root : obj) (keys : list string) :
  absent_segment root keys -> exists k, walk root keys = Raise (KeyError k).
Proof.
  intros (before & key & after & o & d & -> & W & V & G).
  exists key. rewrite walk_app, W. simpl. unfold sub. now rewrite V; simpl; rewrite G.
Qed.

Lemma get_reference_miss self s cache st :
  (cache = true -> _cached_references st !! s = None) ->
  get_reference self (JStr s) cache st =
  if negb (String.eqb (first (split "/" s)) "#")
  then (Raise (invalid_reference (JStr s)), st)
  else match walk (context self) (rest (split "/" s)) with
       | Raise (KeyError _) => (Raise (unresolved_reference (JStr s)), st)
       | Raise e => (Raise e, st)
       | Ok o =>
           (Ok (resolved self s o st),
            State (S (next_id st))
              (if cache then <[s := resolved self s o st]> (_cached_references st)
               else _cached_references st))
       end.
Proof.
  intros Hmiss. unfold get_reference.
  assert (E : (if cache then cache_lookup (JStr s) else ret None) st = (Ok None, st)).
  { destruct cache; [|reflexivity]. unfold cache_lookup. now rewrite Hmiss. }
  rewrite (bind_ok _ _ _ _ _ E).
  destruct (negb (String.eqb (first (split "/" s)) "#")); [reflexivity|].
  destruct (walk (context self) (rest (split "/" s))) as [o|e].
  - unfold make_child, __init__, bind, alloc, ret, cache_store, resolved. simpl.
    now destruct cache.
  - now destruct e.
Qed.

Lemma get_reference_hit self s w st :
  _cached_references st !! s = Some w ->
  get_reference self (JStr s) true st = (Ok w, st).
Proof.
  intros H. unfold get_reference, bind, cache_lookup. now rewrite H.
Qed.

(** Only a string resolves. *)
Lemma get_reference_ok_string self ref cache st w st' :
  get_reference self ref cache st = (Ok w, st') -> exists s, ref = JStr s.
Proof.
  intros H. destruct ref; try (now eexists);
    unfold get_reference, bind, cache_lookup, ret, raise in H;
    destruct cache; discriminate H.
Qed.

(** C4 - With a cache that holds nothing for the code, or what the code
    resolves to in the document of the node: the resolution fails with the
    [ValueError] of a malformed code exactly when the segment before
    the first [/] is not [#]; a well-rooted code fails with the
    [ValueError] of a code not present, which carries the whole code,
    when a segment is absent at some step of the walk from the context;
    and when the walk over the segments after [#] succeeds, the
    resolution returns a node on the object reached, named by the last
    segment. *)
Theorem get_reference_failures self s cache st :
  (cache = true ->
   forall w, _cached_references st !! s = Some w -> resolves_to (context self) s w) ->
  (fst (get_reference self (JStr s) cache st) = Raise (invalid_reference (JStr s))
   <-> first (split "/" s) <> "#") /\
  (first (split "/" s) = "#" ->
   absent_segment (context self) (rest (split "/" s)) ->
   get_reference self (JStr s) cache st = (Raise (unresolved_reference (JStr s)), st)) /\
  (forall o,
     first (split "/" s) = "#" ->
     walk (context self) (rest (split "/" s)) = Ok o ->
     exists w st',
       get_reference self (JStr s) cache st = (Ok w, st') /\
       schema w = o /\ name w = Some (final (split "/" s))) /\
  condition_of (invalid_reference (JStr s)) = Some (InvalidReference (JStr s)) /\
  condition_of (unresolved_reference (JStr s)) = Some (UnresolvedReference (JStr s)).
Proof.
  intros Hc.
  destruct (decide (cache = true /\ exists w, _cached_references st !! s = Some w))
    as [[-> [w Hw]]|Hmiss].
  - (* answered by the cache *)
    destruct (Hc eq_refl w Hw) as (R & W & N).
    rewrite (get_reference_hit self s w st Hw). simpl.
    split; [split; [intros X; discriminate X|intros X; congruence]|].
    split.
    { intros _ A. destruct (walk_absent _ _ A) as [k Hk]. congruence. }
    split; [|split; reflexivity].
    intros o _ Ho. exists w, st. split; [reflexivity|]. split; [congruence|exact N].
  - assert (M : cache = true -> _cached_references st !! s = None).
    { intros ->. destruct (_cached_references st !! s) as [w|] eqn:E; [|reflexivity].
      exfalso. apply Hmiss. eauto. }
    rewrite (get_reference_miss self s cache st M).
    destruct (String.eqb_spec (first (split "/" s)) "#") as [R|R]; simpl.
    + split.
      { split; [|congruence].
        destruct (walk (context self) (rest (split "/" s))) as [o|e] eqn:W; simpl;
          [intros X; discriminate X|].
        destruct (walk_raises _ _ _ W) as [->|[k ->]]; simpl;
          intros X; unfold invalid_reference, unresolved_reference in X;
          discriminate X. }
      split.
      { intros _ A. destruct (walk_absent _ _ A) as [k ->]. reflexivity. }
      split; [|split; reflexivity].
      intros o _ ->. eexists. eexists. split; [reflexivity|]. split; reflexivity.
    + split; [split; [intros _; exact R|reflexivity]|].
      split; [congruence|]. split; [congruence|split; reflexivity].
Qed.

(** A code that is not in the document, and a code without [#]. *)
Lemma get_reference_failures_witness :
  fst (get_reference (Sample.root_of Sample.foo_bar) (JStr "definitions/Foo") true
         Sample.start)
  = Raise (invalid_reference (JStr "definitions/Foo"))
  /\ get_reference (Sample.root_of Sample.foo_bar) (JStr "#/definitions/Baz") true
       Sample.start
     = (Raise (unresolved_reference (JStr "#/definitions/Baz")), Sample.start).
Proof.
  assert (E : forall s, true = true -> forall w,
               _cached_references Sample.start !! s = Some w ->
               resolves_to (context (Sample.root_of Sample.foo_bar)) s w).
  { intros s _ w H. simpl in H. rewrite lookup_empty in H. discriminate H. }
  split.
  - apply (proj1 (get_reference_failures (Sample.root_of Sample.foo_bar)
                    "definitions/Foo" true Sample.start (E _))).
    discriminate.
  - apply (proj1 (proj2 (get_reference_failures (Sample.root_of Sample.foo_bar)
                           "#/definitions/Baz" true Sample.start (E _))));
      [reflexivity|].
    exists ["definitions"], "Baz", [].
    eexists. eexists. split; [reflexivity|]. split; [reflexivity|].
    split; reflexivity.
Defined.

(** C4, as the specification states it, fails when the cache answers:
    the cache belongs to the class, and a code stored while another
    document was read is returned without a walk, although the segment
    [Foo] is absent from the document of the node. *)
Lemma cached_code_is_not_walked :
  absent_segment (context Sample.other_root) (rest (split "/" "#/definitions/Foo"))
  /\ fst (get_reference Sample.other_root (JStr "#/definitions/Foo") true
            (snd (get_reference (Sample.root_of Sample.foo_bar)
                    (JStr "#/definitions/Foo") true Sample.start)))
     = Ok (resolved (Sample.root_of Sample.foo_bar) "#/definitions/Foo"
             (Obj 1 ["definitions"; "Foo"] (JDict [("type", JStr "object")]))
             Sample.start)
  /\ ~ fails_when_absent Sample.other_root "#/definitions/Foo" true
         (snd (get_reference (Sample.root_of Sample.foo_bar)
                 (JStr "#/definitions/Foo") true Sample.start)).
Proof.
  assert (A : absent_segment (context Sample.other_root)
                (rest (split "/" "#/definitions/Foo"))).
  { exists ["definitions"], "Foo", []. eexists. eexists.
    split; [reflexivity|]. split; [reflexivity|]. split; reflexivity. }
  split; [exact A|]. split; [vm_compute; reflexivity|].
  intros F. specialize (F eq_refl A). vm_compute in F. discriminate F.
Qed.

(** C5 - A code resolved with the cache returns, when it is resolved
    again from any node and in any later state of the cache, the very
    instance of the first call, and the second call changes nothing: it
    allocates no node.  Without the cache a second call on the same
    document makes a new instance with the schema, the context and the
    name of the first, whose parent is the node that resolves. *)
Theorem get_reference_twice self ref st w st1 :
  (get_reference self ref true st = (Ok w, st1) ->
   forall self' st2,
     _cached_references st1 ⊆ _cached_references st2 ->
     get_reference self' ref true st2 = (Ok w, st2)) /\
  (get_reference self ref false st = (Ok w, st1) ->
   forall self',
     context self' = context self ->
     exists w2 st2,
       get_reference self' ref false st1 = (Ok w2, st2) /\
       schema w2 = schema w /\ context w2 = context w /\ name w2 = name w /\
       parent w = Some (oid self) /\ parent w2 = Some (oid self') /\
       oid w2 <> oid w).
Proof.
  split; intros H; destruct (get_reference_ok_string _ _ _ _ _ _ H) as [s ->].
  - intros self' st2 Sub.
    assert (L : _cached_references st1 !! s = Some w).
    { destruct (_cached_references st !! s) as [w0|] eqn:E.
      - rewrite (get_reference_hit self s w0 st E) in H. now injection H as <- <-.
      - rewrite (get_reference_miss self s true st (fun _ => E)) in H.
        destruct (negb _); [discriminate H|].
        destruct (walk _ _) as [o|e] eqn:W; [|destruct e; discriminate H].
        injection H as <- <-. simpl. apply lookup_insert_eq. }
    apply get_reference_hit. exact (lookup_weaken _ _ _ _ L Sub).
  - intros self' Ctx.
    assert (F : forall st, false = true -> _cached_references st !! s = None)
      by discriminate.
    rewrite (get_reference_miss self s false st (F st)) in H.
    rewrite (get_reference_miss self' s false st1 (F st1)), Ctx.
    destruct (negb _); [discriminate H|].
    destruct (walk _ _) as [o|e] eqn:W; [|destruct e; discriminate H].
    injection H as <- <-.
    eexists. eexists. split; [reflexivity|]. unfold resolved. simpl.
    rewrite Ctx. repeat split. lia.
Qed.

Lemma get_reference_twice_witness :
  (forall self',
     get_reference self' (JStr "#/definitions/Foo") true
       (snd (get_reference (Sample.root_of Sample.foo_bar) (JStr "#/definitions/Foo") true
               Sample.start))
     = get_reference (Sample.root_of Sample.foo_bar) (JStr "#/definitions/Foo") true
         Sample.start)
  /\ exists w2 st2,
       get_reference (Sample.root_of Sample.foo_bar) (JStr "#/definitions/Foo") false
         (State 8 ∅) = (Ok w2, st2)
       /\ oid w2 <> 7%nat.
Proof.
  split.
  - intros self'.
    exact (proj1 (get_reference_twice (Sample.root_of Sample.foo_bar)
                    (JStr "#/definitions/Foo") Sample.start _ _) eq_refl self' _
             (reflexivity _)).
  - destruct (proj2 (get_reference_twice (Sample.root_of Sample.foo_bar)
                       (JStr "#/definitions/Foo") Sample.start _ _) eq_refl
                _ eq_refl)
      as (w2 & st2 & H & _ & _ & _ & _ & _ & N).
    exists w2, st2. split; [exact H|exact N].
Defined.

(** ** What a call can raise *)

Section RaisesOnly.

Context {A B : Type} (P : exn -> Prop).

Lemma raises_only_ret (a : A) : raises_only P (ret a).
Proof. intros st e st' H. discriminate H. Qed.

Lemma raises_only_raise (e : exn) : P e -> raises_only P (raise (A := A) e).
Proof. intros H st e' st' [= <- _]. exact H. Qed.

Lemma raises_only_lift (o : outcome A) :
  (forall e, o = Raise e -> P e) -> raises_only P (lift o).
Proof. intros H st e st' [= -> _]. now apply H. Qed.

Lemma raises_only_bind (m : M A) (k : A -> M B) :
  raises_only P m -> (forall a, raises_only P (k a)) -> raises_only P (bind m k).
Proof.
  intros Hm Hk st e st' H. unfold bind in H.
  destruct (m st) as [[a|e0] st0] eqn:E.
  - exact (Hk a _ _ _ H).
  - injection H as <- <-. exact (Hm _ _ _ E).
Qed.

End RaisesOnly.

Lemma raises_only_mapM {A B : Type} (P : exn -> Prop) (f : A -> M B) (l : list A) :
  (forall a, raises_only P (f a)) -> raises_only P (mapM f l).
Proof.
  intros Hf. induction l as [|x l IH]; simpl.
  - intros st e st' H. discriminate H.
  - apply raises_only_bind; [apply Hf|]. intros y.
    intros st e st' H. unfold bind in H.
    destruct (mapM f l st) as [[ys|e0] st0] eqn:E; [discriminate H|].
    injection H as <- <-. exact (IH _ _ _ E).
Qed.

Lemma plain_sound e : plain e -> sound_report e.
Proof. intros H v ->. contradiction H. Qed.

Lemma getitem_plain v k e : getitem v k = Raise e -> plain e.
Proof.
  unfold getitem. destruct v; try (intros [= <-]; exact I).
  destruct (dict_get d k); [discriminate|]. intros [= <-]. exact I.
Qed.

Lemma get_plain v k dflt e : get v k dflt = Raise e -> plain e.
Proof.
  unfold get. destruct v; try (intros [= <-]; exact I).
  destruct (dict_get d k); discriminate.
Qed.

Lemma contains_plain k v e : contains k v = Raise e -> plain e.
Proof. unfold contains. destruct v; try discriminate; intros [= <-]; exact I. Qed.

Lemma type_plain self e : type_ self = Raise e -> plain e.
Proof. rewrite type_get. apply get_plain. Qed.

Lemma sub_plain o k e : sub o k = Raise e -> plain e.
Proof.
  unfold sub. destruct (getitem (val o) k) eqn:E; simpl; [discriminate|].
  intros [= <-]. exact (getitem_plain _ _ _ E).
Qed.

Lemma is_reference_plain self e : is_reference self = Raise e -> plain e.
Proof. apply contains_plain. Qed.

Lemma is_object_plain self e : is_object self = Raise e -> plain e.
Proof.
  unfold is_object. destruct (type_ self) as [t|e0] eqn:T; simpl.
  - destruct (eq_str t "object"); [|discriminate].
    destruct (is_reference self) eqn:R; simpl; [discriminate|].
    intros [= <-]. exact (is_reference_plain _ _ R).
  - intros [= <-]. exact (type_plain _ _ T).
Qed.

Lemma classname_plain self e : classname self = Raise e -> plain e.
Proof.
  unfold classname.
  destruct (match name self with Some s => _ | None => _ end); [discriminate|].
  destruct (is_root self); [discriminate|].
  destruct (is_reference self) as [[|]|e0] eqn:R; simpl.
  - destruct (getitem (val (schema self)) "$ref") as [[]|e1] eqn:G; simpl;
      try discriminate; intros [= <-]; try exact I.
    exact (getitem_plain _ _ _ G).
  - intros [= <-]. exact I.
  - intros [= <-]. exact (is_reference_plain _ _ R).
Qed.

Lemma make_child_ok self s n st :
  make_child self s n st =
  (Ok (Instance_ (next_id st) s
         (if truthy (val (context self)) then context self else s)
         (Some (oid self)) n),
   State (S (next_id st)) (_cached_references st)).
Proof. reflexivity. Qed.

Lemma make_child_raises P self s n : raises_only P (make_child self s n).
Proof. intros st e st' H. rewrite make_child_ok in H. discriminate H. Qed.

Lemma alloc_raises P : raises_only P alloc.
Proof. intros st e st' H. discriminate H. Qed.

(** A resolution raises a [ValueError] about the code, or an exception
    that is no [ValueError]. *)
Lemma get_reference_raises self ref cache :
  raises_only
    (fun e => plain e \/ e = invalid_reference ref \/ e = unresolved_reference ref)
    (get_reference self ref cache).
Proof.
  intros st e st' H. unfold get_reference, bind in H.
  destruct ((if cache then cache_lookup ref else ret None) st) as [[hit|e0] st0] eqn:E.
  - destruct hit as [w|]; [discriminate H|].
    destruct ref; try (injection H as <- _; left; exact I).
    destruct (negb _); [injection H as <- _; now right; left|].
    destruct (walk _ _) as [o|e1] eqn:W.
    + rewrite make_child_ok in H. destruct cache; discriminate H.
    + destruct (walk_raises _ _ _ W) as [->|[k ->]]; injection H as <- _.
      * left; exact I.
      * now right; right.
  - injection H as <- _. left.
    destruct cache; [|discriminate E].
    unfold cache_lookup in E. destruct ref; try discriminate E;
      injection E as <- _; exact I.
Qed.

Lemma get_reference_sound self ref cache :
  raises_only sound_report (get_reference self ref cache).
Proof.
  intros st e st' H.
  destruct (get_reference_raises self ref cache st e st' H) as [Hp|[->| ->]].
  - now apply plain_sound.
  - intros v X. discriminate X.
  - intros v X. discriminate X.
Qed.

(** ** The depth of the calls *)

Lemma steady_refl {A : Type} (m : M A) : steady m m.
Proof. intros st r st' H _. exact H. Qed.

Lemma steady_bind {A B : Type} (m m' : M A) (k k' : A -> M B) :
  steady m m' -> (forall a, steady (k a) (k' a)) -> steady (bind m k) (bind m' k').
Proof.
  intros Hm Hk st r st' H N. unfold bind in *.
  destruct (m st) as [[a|e] st0] eqn:E.
  - rewrite (Hm st (Ok a) st0 E) by discriminate. now apply Hk.
  - injection H as <- <-. rewrite (Hm st (Raise e) st0 E); [reflexivity|].
    intros [= ->]. now apply N.
Qed.

Lemma steady_mapM {A B : Type} (f f' : A -> M B) (l : list A) :
  (forall a, steady (f a) (f' a)) -> steady (mapM f l) (mapM f' l).
Proof.
  intros Hf. induction l as [|x l IH]; cbn [mapM].
  - apply steady_refl.
  - apply steady_bind; [apply Hf|]. intros y.
    apply steady_bind; [exact IH|]. intros ys. apply steady_refl.
Qed.

Section Depth.

Context {unicode : Unicode}.

Variable construct_function_call :
  string -> list pyarg -> list (string * pyarg) -> string.

Ltac steady_step :=
  match goal with
  | |- steady ?m ?m => apply steady_refl
  | |- steady (bind _ _) (bind _ _) => apply steady_bind; [|intro]
  | |- steady (mapM _ _) (mapM _ _) => apply steady_mapM; intro
  | |- steady (if ?b then _ else _) (if ?b then _ else _) => destruct b
  | |- steady (match ?t with JNull => _ | _ => _ end) _ => destruct t
  end.

(** A call of [trait_code] that does not run out of stack gives the
    same result with a deeper stack. *)
Lemma trait_code_deeper fuel :
  forall self,
    steady (trait_code construct_function_call fuel self)
           (trait_code construct_function_call (S fuel) self).
Proof.
  induction fuel as [|fuel IH]; intros self.
  - intros st r st' [= <- _] N. contradiction N. reflexivity.
  - cbn [trait_code]. repeat steady_step; apply IH.
Qed.

End Depth.

Create HintDb plain discriminated.
#[local] Hint Resolve getitem_plain get_plain contains_plain type_plain sub_plain
  is_reference_plain is_object_plain classname_plain : plain.

(** ** The type mapping *)

Section TypeMapping.

Context {unicode : Unicode}.

Variable construct_function_call :
  string -> list pyarg -> list (string * pyarg) -> string.

Lemma call_info_plain info e :
  call_info construct_function_call info = Raise e -> plain e.
Proof.
  unfold call_info.
  destruct (getitem info "cls") as [cls|e0] eqn:C; simpl;
    [|intros [= <-]; eauto with plain].
  destruct (get info "args" (JList [])) as [args|e0] eqn:G; simpl;
    [|intros [= <-]; eauto with plain].
  destruct (get info "kwargs" (JDict [])) as [kw|e0] eqn:K; simpl;
    [|intros [= <-]; eauto with plain].
  destruct cls, args, kw; try discriminate; intros [= <-]; exact I.
Qed.

(** One rule of the logic of exceptions. *)
Ltac raises_step :=
  match goal with
  | |- raises_only _ (bind _ _) => apply raises_only_bind; [|intro]
  | |- raises_only _ (ret _) => apply raises_only_ret
  | |- raises_only _ (lift _) =>
      apply raises_only_lift; intros ? ?; apply plain_sound;
      eauto using call_info_plain with plain
  | |- raises_only _ (make_child _ _ _) => apply make_child_raises
  | |- raises_only _ alloc => apply alloc_raises
  | |- raises_only _ (get_reference _ _ _) => apply get_reference_sound
  | |- raises_only _ (mapM _ _) => apply raises_only_mapM; intro
  | |- raises_only _ (raise (NotImplementedError _)) =>
      apply raises_only_raise; intros ? X; discriminate X
  | |- raises_only _ (raise TypeError) =>
      apply raises_only_raise; intros ? X; discriminate X
  | |- raises_only _ (if ?b then _ else _) => destruct b eqn:?
  end.

(** Whatever [trait_code] raises, an unrecognized type it reports is a
    value of its last branch. *)
Lemma trait_code_sound fuel :
  forall self, raises_only sound_report (trait_code construct_function_call fuel self).
Proof.
  induction fuel as [|fuel IH]; intros self.
  - apply raises_only_raise. intros v X. discriminate X.
  - cbn [trait_code]. repeat raises_step; try apply IH.
    all: match goal with
         | |- raises_only _ (match ?t with JNull => _ | _ => _ end) => destruct t
         end.
    all: repeat raises_step; try apply IH.
    all: apply raises_only_raise; intros v [= <-]; unfold code_unrecognized;
      match goal with
      | H1 : in_strs _ _ = false, H2 : eq_str _ "array" = false,
        H3 : eq_str _ "object" = false |- _ => now rewrite H1, H2, H3
      end.
Qed.

(** C6 - A node with [$ref] and without [not]: when the target the
    code resolves to is an object, the trait is [T.Instance] of the
    class name of the target, which is the name given to the target
    when it has one; when the target is not an object, the trait is the
    trait of the target itself, in the state the resolution leaves. *)
Theorem reference_trait_code fuel self d r st tgt st1 b :
  val (schema self) = JDict d ->
  dict_has d "not" = false ->
  dict_get d "$ref" = Some r ->
  get_reference self r true st = (Ok tgt, st1) ->
  is_object tgt = Ok b ->
  (b = true ->
   trait_code construct_function_call (S fuel) self st =
   (let? c := classname tgt in Ok ("T.Instance(" +:+ c +:+ ")"), st1)
   /\ forall n, name tgt = Some n -> n <> "" ->
        trait_code construct_function_call (S fuel) self st =
        (Ok ("T.Instance(" +:+ n +:+ ")"), st1)) /\
  (b = false ->
   trait_code construct_function_call (S fuel) self st =
   trait_code construct_function_call fuel tgt st1
   /\ forall res st',
        trait_code construct_function_call fuel tgt st1 = (res, st') ->
        res <> Raise RecursionError ->
        trait_code construct_function_call (S fuel) self st = (res, st') /\
        trait_code construct_function_call (S fuel) tgt st1 = (res, st')).
Proof.
  intros H N R G O.
  assert (E : trait_code construct_function_call (S fuel) self st =
              if b then (let? c := classname tgt in Ok ("T.Instance(" +:+ c +:+ ")"), st1)
              else trait_code construct_function_call fuel tgt st1).
  { cbn [trait_code].
    rewrite ?(type_dict self _ H), ?(contains_dict self _ _ H), ?bind_lift.
    rewrite N. rewrite ?(contains_dict self _ _ H), ?bind_lift.
    unfold dict_has. rewrite R.
    rewrite bind_lift, H. unfold getitem. rewrite R.
    rewrite (bind_ok _ _ _ _ _ G), bind_lift, O.
    destruct b; [|reflexivity].
    rewrite bind_lift. now destruct (classname tgt). }
  split; intros ->.
  - split; [exact E|].
    intros n Hn Hne. rewrite E, (classname_named tgt n Hn Hne). reflexivity.
  - split; [exact E|].
    intros res st' T NR. split; [now rewrite E|].
    exact (trait_code_deeper construct_function_call fuel tgt st1 res st' T NR).
Qed.

(** A node on the dictionary literal [{'type': n}] of a primitive name. *)
Lemma trait_code_primitive fuel self n st :
  val (schema self) = JDict [("type", JStr n)] ->
  In n simple_types ->
  trait_code construct_function_call (S fuel) self st =
  (Ok (construct_function_call (primitive_class n) [] []), st).
Proof.
  intros H I.
  rewrite (trait_code_on_type construct_function_call fuel self _ st H).
  - simpl in I. now repeat destruct I as [<-|I].
  - intros k Hk. simpl in Hk. now repeat destruct Hk as [<-|Hk].
Qed.

Lemma union_members fuel self names :
  Forall (fun n => In n simple_types) names ->
  forall st, exists st',
    mapM (fun typ =>
            bind alloc (fun a =>
            bind (make_child self (Obj a [] (JDict [("type", typ)])) None)
                 (fun child => trait_code construct_function_call (S fuel) child)))
         (map JStr names) st
    = (Ok (map (fun n => construct_function_call (primitive_class n) [] []) names), st').
Proof.
  induction 1 as [|n names Hn _ IH]; intros st; cbn [map mapM].
  - now eexists.
  - match goal with
    | |- exists st', bind ?m ?k st = _ =>
        assert (E1 : m st =
                     (Ok (construct_function_call (primitive_class n) [] []),
                      State (S (S (next_id st))) (_cached_references st)))
    end.
    { unfold bind at 1 2. unfold alloc. rewrite make_child_ok.
      now apply trait_code_primitive. }
    rewrite (bind_ok _ _ _ _ _ E1).
    destruct (IH (State (S (S (next_id st))) (_cached_references st))) as [st' E].
    rewrite (bind_ok _ _ _ _ _ E). now eexists.
Qed.

(** The loop of the union branch is the run of the members in turn. *)
Lemma union_branch_members fuel self ms :
  forall st,
    mapM (fun typ =>
            bind alloc (fun a =>
            bind (make_child self (Obj a [] (JDict [("type", typ)])) None)
                 (fun child => trait_code construct_function_call fuel child)))
         ms st
    = members construct_function_call fuel self ms st.
Proof.
  induction ms as [|m ms IH]; intros st; cbn [mapM members]; [reflexivity|].
  assert (E : bind alloc (fun a =>
              bind (make_child self (Obj a [] (JDict [("type", m)])) None)
                   (fun child => trait_code construct_function_call fuel child)) st
              = trait_code construct_function_call fuel (member self m st)
                  (State (S (S (next_id st))) (_cached_references st))).
  { unfold bind at 1 2. unfold alloc. now rewrite make_child_ok. }
  unfold bind at 1. rewrite E.
  destruct (trait_code construct_function_call fuel (member self m st) _)
    as [[code|e] st1]; [|reflexivity].
  unfold bind, ret. rewrite IH.
  now destruct (members construct_function_call fuel self ms st1) as [[codes|e] st2].
Qed.

(** C3 - A node with none of the keys dispatched before the type fails
    with the [ValueError] that reports its own type value exactly when
    that value is none of the primitive names, neither ["array"] nor
    ["object"], and not a list.  A list is mapped member by member: a
    list of primitive names gives the union of their traitlets, and any
    list gives the union of the codes of its members, each dispatched
    as the node [{'type': m}], or the failure of the first member that
    fails. *)
Theorem unrecognized_type_iff fuel self d st :
  val (schema self) = JDict d ->
  no_dispatched_key d ->
  (fst (trait_code construct_function_call (S fuel) self st)
   = Raise (unrecognized_type (default (JStr "object") (dict_get d "type")))
   <-> code_unrecognized (default (JStr "object") (dict_get d "type")) = true) /\
  (forall names,
     dict_get d "type" = Some (JList (map JStr names)) ->
     Forall (fun n => In n simple_types) names ->
     fst (trait_code construct_function_call (S (S fuel)) self st)
     = Ok (construct_function_call "jst.JSONUnion"
             [Variable_
                ("[" +:+
                 join ", "
                   (map (fun n => construct_function_call (primitive_class n) [] [])
                        names)
                 +:+ "]")] [])) /\
  (forall ms,
     dict_get d "type" = Some (JList ms) ->
     trait_code construct_function_call (S fuel) self st
     = match members construct_function_call fuel self ms st with
       | (Ok codes, st') =>
           (Ok (construct_function_call "jst.JSONUnion"
                  [Variable_ ("[" +:+ join ", " codes +:+ "]")] []), st')
       | (Raise e, st') => (Raise e, st')
       end) /\
  condition_of (unrecognized_type (default (JStr "object") (dict_get d "type")))
  = Some (UnrecognizedType (default (JStr "object") (dict_get d "type"))).
Proof.
  intros H N. split; [split|split; [|split; [|reflexivity]]].
  4: { intros ms T.
       rewrite (trait_code_on_type construct_function_call fuel self d st H N), T.
       cbn -[trait_code mapM bind members].
       unfold bind at 1. rewrite union_branch_members.
       now destruct (members construct_function_call fuel self ms st) as [[codes|e] st']. }
  - intros E.
    destruct (trait_code construct_function_call (S fuel) self st) as [o st'] eqn:T.
    simpl in E. subst o.
    exact (trait_code_sound (S fuel) self st _ st' T _ eq_refl).
  - intros U. rewrite (trait_code_on_type construct_function_call fuel self d st H N).
    cbv zeta. unfold code_unrecognized in U.
    destruct (in_strs _ simple_types); [discriminate U|].
    destruct (eq_str _ "array"); [discriminate U|].
    destruct (eq_str _ "object"); [discriminate U|].
    now destruct (default (JStr "object") (dict_get d "type")).
  - intros names T F.
    rewrite (trait_code_on_type construct_function_call (S fuel) self d st H N), T.
    cbn -[trait_code mapM bind].
    destruct (union_members fuel self names F st) as [st' E].
    now rewrite (bind_ok _ _ _ _ _ E).
Qed.

End TypeMapping.

(** The reference to the object [Foo] and the reference to the integer
    [Bar]. *)
Lemma reference_trait_code_witness :
  fst (trait_code Sample.construct_function_call 1
         (Sample.child_of Sample.foo_bar (JDict [("$ref", JStr "#/definitions/Foo")]))
         Sample.start)
  = Ok "T.Instance(Foo)"
  /\ fst (trait_code Sample.construct_function_call 2
            (Sample.child_of Sample.foo_bar (JDict [("$ref", JStr "#/definitions/Bar")]))
            Sample.start)
     = fst (trait_code Sample.construct_function_call 1
              (Sample.child_of Sample.foo_bar (JDict [("type", JStr "integer")]))
              Sample.start).
Proof.
  split.
  - rewrite (proj2 (proj1 (reference_trait_code Sample.construct_function_call 0
               (Sample.child_of Sample.foo_bar (JDict [("$ref", JStr "#/definitions/Foo")]))
               _ _ Sample.start _ _ true eq_refl eq_refl eq_refl eq_refl eq_refl)
               eq_refl) "Foo" eq_refl).
    + reflexivity.
    + discriminate.
  - rewrite (proj1 (proj2 (reference_trait_code Sample.construct_function_call 1
               (Sample.child_of Sample.foo_bar (JDict [("$ref", JStr "#/definitions/Bar")]))
               _ _ Sample.start _ _ false eq_refl eq_refl eq_refl eq_refl eq_refl)
               eq_refl)).
    reflexivity.
Defined.

(** The type ["foo"], and the type [["string", "null"]]. *)
Lemma unrecognized_type_iff_witness :
  fst (trait_code Sample.construct_function_call 1
         (Sample.child_of Sample.foo_bar (JDict [("type", JStr "foo")])) Sample.start)
  = Raise (unrecognized_type (JStr "foo"))
  /\ fst (trait_code Sample.construct_function_call 2
            (Sample.child_of Sample.foo_bar
               (JDict [("type", JList [JStr "string"; JStr "null"])]))
            Sample.start)
     = Ok "jst.JSONUnion([jst.JSONString(), jst.JSONNull()])"
  /\ fst (trait_code Sample.construct_function_call 2
            (Sample.child_of Sample.foo_bar
               (JDict [("type", JList [JStr "string"; JStr "foo"; JStr "null"])]))
            Sample.start)
     = Raise (unrecognized_type (JStr "foo")).
Proof.
  assert (K : forall t, no_dispatched_key [("type", t)]).
  { intros t k Hk. simpl in Hk. now repeat destruct Hk as [<-|Hk]. }
  split; [|split].
  - apply (proj1 (unrecognized_type_iff Sample.construct_function_call 0
                    (Sample.child_of Sample.foo_bar (JDict [("type", JStr "foo")]))
                    _ Sample.start eq_refl (K _))).
    reflexivity.
  - apply (proj1 (proj2 (unrecognized_type_iff Sample.construct_function_call 0
                    (Sample.child_of Sample.foo_bar
                       (JDict [("type", JList [JStr "string"; JStr "null"])]))
                    _ Sample.start eq_refl (K _))) ["string"; "null"] eq_refl).
    repeat constructor; simpl; tauto.
  - rewrite (proj1 (proj2 (proj2 (unrecognized_type_iff Sample.construct_function_call 1
                    (Sample.child_of Sample.foo_bar
                       (JDict [("type", JList [JStr "string"; JStr "foo"; JStr "null"])]))
                    _ Sample.start eq_refl (K _))))
               [JStr "string"; JStr "foo"; JStr "null"] eq_refl).
    reflexivity.
Defined.

(** C3, as the specification states it, fails on the list [["array"]],
    which is no list of primitive names: its member is dispatched as the
    node [{'type': 'array'}], which has no [items]. *)
Lemma list_with_array_raises_KeyError :
  fst (trait_code Sample.construct_function_call 2
         (Sample.child_of Sample.foo_bar (JDict [("type", JList [JStr "array"])]))
         Sample.start)
  = Raise (KeyError "items")
  /\ spec_unrecognized (JList [JStr "array"]) = true
  /\ ~ unrecognized_iff_outside Sample.construct_function_call 2
         (Sample.child_of Sample.foo_bar (JDict [("type", JList [JStr "array"])]))
         Sample.start.
Proof.
  split; [vm_compute; reflexivity|]. split; [reflexivity|].
  intros C.
  assert (K : no_dispatched_key [("type", JList [JStr "array"])]).
  { intros k Hk. simpl in Hk. now repeat destruct Hk as [<-|Hk]. }
  destruct (proj2 (C _ eq_refl K) eq_refl) as [v Hv].
  vm_compute in Hv. discriminate Hv.
Qed.

(** ** Imports *)

Lemma dict_set_fresh {V : Type} (k : string) (v : V) (acc : list (string * V)) :
  ~ In k (keys acc) -> dict_set k v acc = acc ++ [(k, v)].
Proof.
  induction acc as [|[k' v'] acc IH]; simpl; intros H; [reflexivity|].
  destruct (String.eqb_spec k k') as [->|N]; [tauto|].
  rewrite IH; tauto.
Qed.

(** The children of the entries of a dictionary whose keys differ: one
    for each entry, in the order of the entries, and the cache is not
    touched. *)
Lemma wrapped_entries self (entries : obj) (named : string -> option string) d :
  NoDup (keys d) ->
  forall acc st,
    (forall k, In k (keys d) -> ~ In k (keys acc)) ->
    exists cs st',
      foldM (fun acc kv =>
               bind (make_child self
                       (Obj (base entries) (path entries ++ [fst kv]) (snd kv))
                       (named (fst kv)))
                    (fun child => ret (dict_set (fst kv) child acc)))
            d acc st
      = (Ok (acc ++ cs), st') /\
      map (fun c => val (schema (snd c))) cs = values d /\
      keys cs = keys d /\
      _cached_references st' = _cached_references st.
Proof.
  induction d as [|[k v] d IH]; intros N acc st Hacc; simpl.
  - exists [], st. now rewrite app_nil_r.
  - simpl in N. apply NoDup_cons in N. destruct N as [Hk Hd].
    specialize (IH Hd).
    unfold bind at 1 2. rewrite make_child_ok. unfold ret at 1. simpl.
    rewrite dict_set_fresh by (apply Hacc; simpl; tauto).
    edestruct (IH (acc ++ [(k, Instance_ (next_id st)
                                  (Obj (base entries) (path entries ++ [k]) v)
                                  (if truthy (val (context self)) then context self
                                   else Obj (base entries) (path entries ++ [k]) v)
                                  (Some (oid self)) (named k))])
                  (State (S (next_id st)) (_cached_references st)))
      as (cs & st' & E & Hv & Hks & Hc).
    { intros k' Hk' Hin. unfold keys in Hin. rewrite map_app, in_app_iff in Hin.
      destruct Hin as [Hin|[<-|[]]].
      - apply (Hacc k'); [simpl; tauto|exact Hin].
      - apply Hk. apply list_elem_of_In. exact Hk'. }
    eexists. exists st'. rewrite E, <- app_assoc. simpl.
    split; [reflexivity|]. simpl. rewrite Hv, Hks. now split.
Qed.

Lemma wrapped_properties_ok self d props st :
  val (schema self) = JDict d ->
  default (JDict []) (dict_get d "properties") = JDict props ->
  NoDup (keys props) ->
  exists cs st',
    wrapped_properties self st = (Ok cs, st') /\
    map (fun c => val (schema (snd c))) cs = values props /\
    keys cs = keys props /\
    _cached_references st' = _cached_references st.
Proof.
  intros H P N. unfold wrapped_properties, wrapped, __getattr__. simpl.
  rewrite H. simpl. unfold dict_has.
  destruct (dict_get d "properties") as [v|] eqn:G; simpl in P |- *.
  - subst v. rewrite bind_lift. simpl.
    destruct (wrapped_entries self (Obj (base (schema self))
                                      (path (schema self) ++ ["properties"])
                                      (JDict props))
                (fun _ => None) props N [] st) as (cs & st' & E & R).
    { intros k _ []. }
    exists cs, st'. split; [exact E|exact R].
  - injection P as <-. rewrite bind_lift. simpl. exists [], st. now repeat split.
Qed.

Lemma imports_loop {unicode : Unicode} self :
  imports self =
  bind (wrapped_properties self)
       (fun props => foldM (import_step self) (values props) basic_imports).
Proof. reflexivity. Qed.

Lemma is_object_dict (w : JSONSchema) od :
  val (schema w) = JDict od -> is_object w = Ok (object_typed (JDict od)).
Proof.
  intros H. unfold is_object, is_reference. rewrite (type_dict w od H), H. simpl.
  destruct (eq_str _ "object"); simpl.
  - now rewrite andb_true_r.
  - now rewrite andb_false_r.
Qed.

Lemma import_statement_named {unicode : Unicode} (w : JSONSchema) n :
  name w = Some n -> n <> "" ->
  import_statement w = Ok ("from ." +:+ lower n +:+ " import " +:+ n).
Proof.
  intros H N. unfold import_statement, modulename.
  now rewrite (classname_named w n H N).
Qed.

(** A resolution in a cache filled from the document of the node: it
    returns a node on what the walk reaches, and the cache stays filled
    from the document. *)
Lemma get_reference_resolves self s o st :
  cache_agrees (context self) st ->
  first (split "/" s) = "#" ->
  walk (context self) (rest (split "/" s)) = Ok o ->
  exists w st',
    get_reference self (JStr s) true st = (Ok w, st') /\
    schema w = o /\ name w = Some (final (split "/" s)) /\
    cache_agrees (context self) st'.
Proof.
  intros C R W.
  destruct (_cached_references st !! s) as [w|] eqn:E.
  - exists w, st. rewrite (get_reference_hit self s w st E).
    destruct (C s w E) as (_ & W' & N).
    split; [reflexivity|]. split; [congruence|]. split; [exact N|exact C].
  - rewrite (get_reference_miss self s true st (fun _ => E)), R, W. simpl.
    eexists. eexists. split; [reflexivity|]. split; [reflexivity|].
    split; [reflexivity|].
    intros s' w' L. simpl in L. rewrite lookup_insert in L.
    destruct (decide (s = s')) as [<-|N].
    + injection L as <-. now repeat split.
    + exact (C s' w' L).
Qed.

Lemma import_step_resolvable {unicode : Unicode} self acc c st :
  cache_agrees (context self) st ->
  resolvable (context self) (val (schema c)) ->
  exists st',
    import_step self acc c st
    = (Ok (acc ++ property_import (context self) (val (schema c))), st') /\
    cache_agrees (context self) st'.
Proof.
  intros C (pd & P & Hr). unfold import_step, is_reference, property_import.
  rewrite P. simpl. rewrite bind_lift. unfold dict_has.
  destruct (dict_get pd "$ref") as [r|] eqn:G.
  - destruct (Hr r eq_refl) as (s & o & od & -> & R & W & V & F).
    rewrite bind_lift.
    destruct (get_reference_resolves self s o st C R W) as (w & st' & E & Sw & Nw & C').
    rewrite (bind_ok _ _ _ _ _ E), bind_lift.
    rewrite (is_object_dict w od) by congruence.
    rewrite W, V.
    destruct (object_typed (JDict od)).
    + rewrite bind_lift, (import_statement_named w _ Nw F). now exists st'.
    + exists st'. now rewrite app_nil_r.
  - exists st. now rewrite app_nil_r.
Qed.

Lemma import_loop {unicode : Unicode} self cs :
  forall acc st,
    cache_agrees (context self) st ->
    Forall (resolvable (context self)) (map (fun c => val (schema c)) cs) ->
    exists st',
      foldM (import_step self) cs acc st
      = (Ok (acc ++ flat_map (property_import (context self))
                      (map (fun c => val (schema c)) cs)), st') /\
      cache_agrees (context self) st'.
Proof.
  induction cs as [|c cs IH]; intros acc st C F; cbn [foldM map flat_map].
  - exists st. now rewrite app_nil_r.
  - cbn [map] in F. apply Forall_cons in F. destruct F as [Fc F].
    destruct (import_step_resolvable self acc c st C Fc) as (st1 & E & C1).
    rewrite (bind_ok _ _ _ _ _ E).
    destruct (IH (acc ++ property_import (context self) (val (schema c))) st1 C1 F)
      as (st' & E' & C').
    exists st'. now rewrite E', <- app_assoc.
Qed.

Lemma refers_nowhere_dict_inv v :
  refers_nowhere v -> exists d, v = JDict d /\ dict_get d "$ref" = None.
Proof.
  intros [d R _]. exists d. split; [reflexivity|].
  unfold dict_has in R. now destruct (dict_get d "$ref").
Qed.

Lemma refers_at_most_once_resolvable root p :
  refers_at_most_once root p -> resolvable root p.
Proof.
  intros [N|(pd & s & o & -> & R & F & L & W & N)].
  - destruct (refers_nowhere_dict_inv p N) as (d & -> & E).
    exists d. split; [reflexivity|]. intros r Hr. congruence.
  - destruct (refers_nowhere_dict_inv _ N) as (od & V & _).
    exists pd. split; [reflexivity|]. intros r Hr.
    exists s, o, od. rewrite R in Hr. injection Hr as <-. now repeat split.
Qed.

(** C2 - On a node whose properties refer at most once, the import list
    is the three fixed imports of [basic_imports], followed, in the
    order of the properties, by the import of the definition of each
    property that is a reference to an object: it is read off the
    classification of each property, not off its trait. *)
Theorem imports_of_references {unicode : Unicode} self d props st :
  val (schema self) = JDict d ->
  default (JDict []) (dict_get d "properties") = JDict props ->
  NoDup (keys props) ->
  Forall (refers_at_most_once (context self)) (values props) ->
  cache_agrees (context self) st ->
  fst (imports self st)
  = Ok (basic_imports ++ flat_map (property_import (context self)) (values props))
  /\ List.length basic_imports = 3%nat.
Proof.
  intros H P N F C. split; [|reflexivity].
  destruct (wrapped_properties_ok self d props st H P N) as (cs & st1 & E & V & _ & K).
  rewrite imports_loop, (bind_ok _ _ _ _ _ E).
  assert (V' : map (fun c => val (schema c)) (values cs) = values props).
  { unfold values in *. now rewrite map_map. }
  assert (C1 : cache_agrees (context self) st1).
  { intros s w L. rewrite K in L. exact (C s w L). }
  assert (F' : Forall (resolvable (context self))
                 (map (fun c => val (schema c)) (values cs))).
  { rewrite V'. exact (Forall_impl _ _ _ F (refers_at_most_once_resolvable _)). }
  destruct (import_loop self (values cs) basic_imports st1 C1 F') as (st' & E' & _).
  now rewrite E', V'.
Qed.

(** The root of a document with a reference to the object [Foo] and a
    reference to the integer [Bar]. *)
Lemma imports_of_references_witness :
  fst (imports (unicode := Sample.unicode) (Sample.root_of Sample.foo_bar) Sample.start)
  = Ok ["import traitlets as T";
        "from . import jstraitlets as jst";
        "from .baseobject import BaseObject";
        "from .foo import Foo"].
Proof.
  refine (proj1 (imports_of_references (Sample.root_of Sample.foo_bar) _
                   [("foo", JDict [("$ref", JStr "#/definitions/Foo")]);
                    ("bar", JDict [("$ref", JStr "#/definitions/Bar")])]
                   Sample.start eq_refl eq_refl _ _ _)).
  - compute_done.
  - constructor; [|constructor; [|constructor]].
    + right. eexists. eexists. eexists.
      split; [reflexivity|]. split; [reflexivity|]. split; [reflexivity|].
      split; [discriminate|]. split; [reflexivity|].
      constructor; [reflexivity|discriminate].
    + right. eexists. eexists. eexists.
      split; [reflexivity|]. split; [reflexivity|]. split; [reflexivity|].
      split; [discriminate|]. split; [reflexivity|].
      constructor; [reflexivity|discriminate].
  - intros s w L. simpl in L. rewrite lookup_empty in L. discriminate L.
Defined.

(** C2, as the specification states it, fails on the count of the fixed
    imports: the root of the example of the specification has no
    property and three imports. *)
Lemma three_fixed_imports :
  fst (imports (unicode := Sample.unicode)
         (Sample.root_of Sample.two_definitions) Sample.start) = Ok basic_imports
  /\ fst (wrapped_properties (Sample.root_of Sample.two_definitions) Sample.start) = Ok []
  /\ ~ two_fixed_imports (unicode := Sample.unicode)
         (Sample.root_of Sample.two_definitions) Sample.start.
Proof.
  split; [reflexivity|]. split; [reflexivity|].
  intros (a & b & stmts & props & I & P & L).
  vm_compute in I, P. injection P as <-. injection I as _ _ <-.
  simpl in L. lia.
Qed.

(** Properties that refer more than once, which the statement on the
    imports leaves aside: a reference to a definition that refers on,
    and an array of references.  The trait of each names the class
    [Foo], and the import list of the node holds the three fixed
    imports. *)
Lemma alias_and_array_without_import :
  fst (imports (unicode := Sample.unicode)
         (Sample.root_of Sample.alias_and_array) Sample.start) = Ok basic_imports
  /\ fst (trait_code Sample.construct_function_call 3
            (Sample.child_of Sample.alias_and_array
               (JDict [("$ref", JStr "#/definitions/Alias")])) Sample.start)
     = Ok "T.Instance(Foo)"
  /\ fst (trait_code Sample.construct_function_call 3
            (Sample.child_of Sample.alias_and_array
               (JDict [("type", JStr "array");
                       ("items", JDict [("$ref", JStr "#/definitions/Foo")])]))
            Sample.start)
     = Ok "jst.JSONArray(T.Instance(Foo))".
Proof. repeat split. Qed.

(** ** The files of a module *)

Lemma object_typed_dict v : object_typed v = true -> exists d, v = JDict d.
Proof. destruct v; try discriminate. now eexists. Qed.

Lemma is_object_object_typed (w : JSONSchema) :
  object_typed (val (schema w)) = true -> is_object w = Ok true.
Proof.
  intros H. destruct (object_typed_dict _ H) as [d E].
  rewrite (is_object_dict w d E). now rewrite <- E, H.
Qed.

Lemma is_object_string_typed (w : JSONSchema) :
  string_typed (val (schema w)) -> is_object w = Ok false.
Proof.
  intros (d & E & T). rewrite (is_object_dict w d E). unfold object_typed.
  rewrite T. simpl. now rewrite andb_false_r.
Qed.

Lemma wrapped_definitions_two {unicode : Unicode} self doc a b st :
  val (schema self) = JDict doc ->
  dict_get doc "definitions" = Some (JDict [("A", a); ("B", b)]) ->
  wrapped_definitions self st =
  (Ok [("a", definition_child self "A" a (next_id st));
       ("b", definition_child self "B" b (S (next_id st)))],
   State (S (S (next_id st))) (_cached_references st)).
Proof.
  intros H D. unfold wrapped_definitions, wrapped, __getattr__. simpl.
  rewrite H. simpl. unfold dict_has. rewrite D. rewrite bind_lift. reflexivity.
Qed.

Lemma module_imports_two {unicode : Unicode} self doc a b st :
  val (schema self) = JDict doc ->
  dict_get doc "definitions" = Some (JDict [("A", a); ("B", b)]) ->
  object_typed a = true ->
  string_typed b ->
  module_imports self st =
  (Ok ["from .a import A"], State (S (S (next_id st))) (_cached_references st)).
Proof.
  intros H D A B. unfold module_imports.
  rewrite (bind_ok _ _ _ _ _ (wrapped_definitions_two self doc a b st H D)).
  cbn [values map snd foldM].
  rewrite (is_object_object_typed (definition_child self "A" a _)) by exact A.
  rewrite (is_object_string_typed (definition_child self "B" b _)) by exact B.
  rewrite (import_statement_named (definition_child self "A" a _) "A" eq_refl)
    by discriminate.
  reflexivity.
Qed.

(** [JSONSchema(doc)] is the root of [doc]. *)
Lemma init_root (doc : obj) st :
  __init__ doc None None None st =
  (Ok (root_instance (next_id st) doc), State (S (next_id st)) (_cached_references st)).
Proof. reflexivity. Qed.

Lemma classname_root id doc : classname (root_instance id doc) = Ok "RootInstance".
Proof. unfold classname. simpl. unfold is_root. simpl. now rewrite is_refl. Qed.

Section Files.

Context {unicode : Unicode}.

Variable construct_function_call :
  string -> list pyarg -> list (string * pyarg) -> string.
Variable render :
  option (list string) -> option string -> string ->
  list (string * option string) -> string.
Variable jstraitlets_py : string.
Variable baseobject_py : string.

(** The file of a node that has no property. *)
Lemma object_code_no_properties fuel self d c st :
  val (schema self) = JDict d ->
  default (JDict []) (dict_get d "properties") = JDict [] ->
  classname self = Ok c ->
  object_code construct_function_call render fuel self st =
  (Ok (render (Some basic_imports) (Some c) "BaseObject" []), st).
Proof.
  intros H P C.
  assert (W : wrapped_properties self st = (Ok [], st)).
  { unfold wrapped_properties, wrapped, __getattr__. simpl. rewrite H. simpl.
    unfold dict_has. destruct (dict_get d "properties") as [v|]; simpl in P |- *.
    - subst v. now rewrite bind_lift.
    - now rewrite bind_lift. }
  assert (I : template_attr (imports self) st = (Ok (Some basic_imports), st)).
  { unfold template_attr. now rewrite imports_loop, (bind_ok _ _ _ _ _ W). }
  assert (N : template_attr (lift (classname self)) st = (Ok (Some c), st)).
  { unfold template_attr, lift. now rewrite C. }
  unfold object_code.
  rewrite (bind_ok _ _ _ _ _ I), (bind_ok _ _ _ _ _ N), (bind_ok _ _ _ _ _ W).
  reflexivity.
Qed.

(** C8 - The root of a document whose definitions are an object [A]
    and a string [B]: when [module_spec] returns, it returns five files,
    the two shipped files, the file of the root, the manifest, which
    imports the root and then [A], and the file of [A]; there is none
    for [B].  It does return when neither the root nor [A] has a
    property. *)
Theorem module_spec_two_definitions fuel id (doc : obj) d a b st :
  val doc = JDict d ->
  dict_get d "definitions" = Some (JDict [("A", a); ("B", b)]) ->
  object_typed a = true ->
  string_typed b ->
  (forall m st',
     module_spec construct_function_call render jstraitlets_py baseobject_py fuel
       (root_instance id doc) st = (Ok m, st') ->
     exists root_code a_code,
       m = [("jstraitlets.py", jstraitlets_py);
            ("baseobject.py", baseobject_py);
            ("rootinstance.py", root_code);
            ("__init__.py", manifest_of_A);
            ("a.py", a_code)]
       /\ fst (object_code construct_function_call render fuel (root_instance id doc) st)
          = Ok root_code) /\
  (forall ad,
     default (JDict []) (dict_get d "properties") = JDict [] ->
     a = JDict ad ->
     default (JDict []) (dict_get ad "properties") = JDict [] ->
     fst (module_spec construct_function_call render jstraitlets_py baseobject_py fuel
            (root_instance id doc) st)
     = Ok [("jstraitlets.py", jstraitlets_py);
           ("baseobject.py", baseobject_py);
           ("rootinstance.py",
            render (Some basic_imports) (Some "RootInstance") "BaseObject" []);
           ("__init__.py", manifest_of_A);
           ("a.py", render (Some basic_imports) (Some "A") "BaseObject" [])]).
Proof.
  intros H D A B.
  assert (E : forall st0 : state, exists (st1 : state) (oa : outcome string) (st2 : state),
             forall o,
               object_code construct_function_call render fuel (root_instance id doc) st
               = (o, st0) ->
               object_code construct_function_call render fuel
                 (definition_child (root_instance id doc) "A" a (S (S (next_id st0)))) st1
               = (oa, st2) /\
               module_spec construct_function_call render jstraitlets_py baseobject_py fuel
                 (root_instance id doc) st
               = match o with
                 | Ok root_code =>
                     match oa with
                     | Ok a_code =>
                         (Ok [("jstraitlets.py", jstraitlets_py);
                              ("baseobject.py", baseobject_py);
                              ("rootinstance.py", root_code);
                              ("__init__.py", manifest_of_A);
                              ("a.py", a_code)], st2)
                     | Raise e => (Raise e, st2)
                     end
                 | Raise e => (Raise e, st0)
                 end).
  { intros st0.
    destruct (object_code construct_function_call render fuel
                (definition_child (root_instance id doc) "A" a (S (S (next_id st0))))
                (State (S (S (S (S (next_id st0))))) (_cached_references st0)))
      as [oa st2] eqn:EA.
    exists (State (S (S (S (S (next_id st0))))) (_cached_references st0)), oa, st2.
    intros o EO. split; [exact EA|].
    unfold module_spec.
    replace (is_root (root_instance id doc)) with true
      by (unfold is_root; simpl; now rewrite is_refl).
    cbn [negb]. unfold modulename, filename, import_statement, modulename.
    rewrite classname_root. cbn [obind].
    rewrite !bind_lift. unfold bind at 1. rewrite EO.
    destruct o as [root_code|e]; [|reflexivity].
    rewrite bind_lift.
    rewrite (bind_ok _ _ _ _ _
               (module_imports_two (root_instance id doc) d a b st0 H D A B)).
    rewrite (bind_ok _ _ _ _ _
               (wrapped_definitions_two (root_instance id doc) d a b _ H D)).
    cbn [values map snd foldM next_id _cached_references].
    rewrite (is_object_object_typed (definition_child (root_instance id doc) "A" a _))
      by exact A.
    rewrite (is_object_string_typed (definition_child (root_instance id doc) "B" b _))
      by exact B.
    rewrite (classname_named (definition_child (root_instance id doc) "A" a _) "A" eq_refl)
      by discriminate.
    cbn [obind].
    repeat (rewrite bind_bind || (rewrite bind_lift; cbv beta iota)).
    unfold bind at 1. rewrite EA.
    destruct oa as [a_code|e]; reflexivity. }
  split.
  - intros m st' HM.
    destruct (object_code construct_function_call render fuel (root_instance id doc) st)
      as [o st0] eqn:EO.
    destruct (E st0) as (st1 & oa & st2 & HE). destruct (HE o eq_refl) as [_ HS].
    rewrite HS in HM. destruct o as [root_code|e]; [|discriminate HM].
    destruct oa as [a_code|e]; [|discriminate HM].
    injection HM as <- _. now exists root_code, a_code.
  - intros ad P -> PA.
    pose proof (object_code_no_properties fuel (root_instance id doc) d "RootInstance" st
                  H P (classname_root id doc)) as EO.
    destruct (E st) as (st1 & oa & st2 & HE). destruct (HE _ EO) as [HA HS].
    rewrite HS.
    rewrite (object_code_no_properties fuel
               (definition_child (root_instance id doc) "A" (JDict ad)
                  (S (S (next_id st))))
               ad "A" st1 eq_refl PA) in HA.
    + now injection HA as <- <-.
    + now apply classname_named.
Qed.

End Files.

(** The document of the example of the specification. *)
Lemma module_spec_two_definitions_witness :
  fst (module_spec (unicode := Sample.unicode)
         Sample.construct_function_call Sample.render "jst" "base" 0
         (Sample.root_of Sample.two_definitions) Sample.start)
  = Ok [("jstraitlets.py", "jst");
        ("baseobject.py", "base");
        ("rootinstance.py",
         Sample.render (Some basic_imports) (Some "RootInstance") "BaseObject" []);
        ("__init__.py", manifest_of_A);
        ("a.py", Sample.render (Some basic_imports) (Some "A") "BaseObject" [])].
Proof.
  refine (proj2 (module_spec_two_definitions Sample.construct_function_call Sample.render
                   "jst" "base" 0 2 (Obj 1 [] Sample.two_definitions) _
                   (JDict [("type", JStr "object"); ("properties", JDict [])])
                   (JDict [("type", JStr "string")]) Sample.start
                   eq_refl eq_refl eq_refl _) _ eq_refl eq_refl eq_refl).
  eexists. split; reflexivity.
Defined.

(** A definition with [not] that no property refers to: [trait_code] is
    never asked for it, and the module is assembled, with a file for
    it. *)
Lemma negated_definition_is_assembled :
  exists m,
    fst (module_spec (unicode := Sample.unicode)
           Sample.construct_function_call Sample.render "jst" "base" 1
           (Sample.root_of Sample.negated_definition) Sample.start) = Ok m
    /\ keys m = ["jstraitlets.py"; "baseobject.py"; "rootinstance.py"; "__init__.py"; "b.py"].
Proof. eexists. split; [vm_compute; reflexivity|reflexivity]. Qed.

(** ** Dictionaries *)

Lemma dict_get_set {V : Type} (k : string) (v : V) (d : list (string * V)) k' :
  dict_get (dict_set k v d) k' = if String.eqb k' k then Some v else dict_get d k'.
Proof.
  induction d as [|[k0 v0] d IH]; simpl.
  - reflexivity.
  - destruct (String.eqb_spec k k0) as [->|N]; simpl.
    + now destruct (String.eqb k' k0).
    + rewrite IH.
      destruct (String.eqb_spec k' k0) as [->|N']; [|reflexivity].
      destruct (String.eqb_spec k0 k) as [E|_]; [congruence|reflexivity].
Qed.

Lemma keys_dict_set {V : Type} (k : string) (v : V) (d : list (string * V)) :
  keys (dict_set k v d) = if dict_has d k then keys d else keys d ++ [k].
Proof.
  unfold dict_has. induction d as [|[k0 v0] d IH]; simpl; [reflexivity|].
  destruct (String.eqb_spec k k0) as [->|N]; simpl; [reflexivity|].
  rewrite IH. now destruct (dict_get d k).
Qed.

Lemma dict_has_keys {V : Type} (d : list (string * V)) k :
  dict_has d k = true <-> In k (keys d).
Proof.
  unfold dict_has. induction d as [|[k0 v0] d IH]; simpl.
  - split; [discriminate|tauto].
  - destruct (String.eqb_spec k k0) as [->|N].
    + split; auto.
    + rewrite IH. split; [tauto|]. intros [E|H]; [congruence|exact H].
Qed.

Lemma NoDup_dict_set {V : Type} (k : string) (v : V) (d : list (string * V)) :
  List.NoDup (keys d) -> List.NoDup (keys (dict_set k v d)).
Proof.
  intros N. rewrite keys_dict_set.
  destruct (dict_has d k) eqn:H; [exact N|].
  apply NoDup_ListNoDup. apply NoDup_app. split; [now apply NoDup_ListNoDup|].
  split; [|apply NoDup_singleton].
  intros x Hx Hk. apply list_elem_of_In in Hx.
  apply list_elem_of_singleton in Hk. subst x.
  apply dict_has_keys in Hx. congruence.
Qed.

Lemma NoDup_dict_update {V : Type} (l d : list (string * V)) :
  List.NoDup (keys d) -> List.NoDup (keys (dict_update d l)).
Proof.
  revert d. induction l as [|[k v] l IH]; intros d N; simpl; [exact N|].
  apply IH. now apply NoDup_dict_set.
Qed.

(** A lookup after an update: the last pair of the key, or the entry of
    the dictionary. *)
Lemma dict_get_update {V : Type} (l d : list (string * V)) k :
  dict_get (dict_update d l) k =
  match dict_get (rev l) k with
  | Some v => Some v
  | None => dict_get d k
  end.
Proof.
  revert d. induction l as [|[k0 v0] l IH]; intros d; simpl; [reflexivity|].
  unfold dict_update in *. simpl. rewrite IH, dict_get_set.
  clear IH. induction (rev l) as [|[k1 v1] r IHr]; simpl.
  - now destruct (String.eqb k k0).
  - destruct (String.eqb k k1); [reflexivity|exact IHr].
Qed.

Lemma dict_get_In {V : Type} (d : list (string * V)) k v :
  dict_get d k = Some v -> In (k, v) d.
Proof.
  induction d as [|[k0 v0] d IH]; simpl; [discriminate|].
  destruct (String.eqb_spec k k0) as [->|N].
  - intros [= ->]. now left.
  - intros H. right. now apply IH.
Qed.

(** The pair a lookup in the reversed list finds is the last of its key. *)
Lemma dict_get_rev_last {V : Type} (l : list (string * V)) k v :
  dict_get (rev l) k = Some v ->
  exists before after, l = before ++ (k, v) :: after /\ ~ In k (keys after).
Proof.
  induction l as [|[k0 v0] l IH] using rev_ind; simpl; [discriminate|].
  rewrite rev_app_distr. simpl.
  destruct (String.eqb_spec k k0) as [->|N].
  - intros [= ->]. exists l, []. split; [reflexivity|]. simpl. tauto.
  - intros H. destruct (IH H) as (before & after & -> & Hn).
    exists before, (after ++ [(k0, v0)]). split; [now rewrite <- app_assoc|].
    unfold keys. rewrite map_app, in_app_iff. simpl. intros [Hi|[E|[]]]; [|congruence].
    now apply Hn.
Qed.

Lemma dict_update_fresh {V : Type} (l d : list (string * V)) :
  List.NoDup (keys d ++ keys l) -> dict_update d l = d ++ l.
Proof.
  revert d. induction l as [|[k v] l IH]; intros d N; simpl.
  - now rewrite app_nil_r.
  - unfold dict_update in *. simpl.
    assert (F : ~ In k (keys d)).
    { intros Hk. apply List.NoDup_remove_2 in N. apply N.
      apply in_or_app. now left. }
    rewrite dict_set_fresh by exact F.
    rewrite IH.
    + now rewrite <- app_assoc.
    + unfold keys in *. rewrite map_app. simpl. now rewrite <- app_assoc.
Qed.

(** ** The children of a node *)

Lemma wrapped_fold self entries key named d :
  forall acc st,
    foldM (fun acc kv =>
             bind (make_child self
                     (Obj (base entries) (path entries ++ [fst kv]) (snd kv))
                     (named (fst kv)))
                  (fun child => ret (dict_set (key (fst kv)) child acc)))
          d acc st
    = (Ok (dict_update acc (children self entries key named d (next_id st))),
       State (List.length d + next_id st) (_cached_references st)).
Proof.
  induction d as [|[k v] d IH]; intros acc st; simpl.
  - now destruct st.
  - unfold bind at 1 2. rewrite make_child_ok. unfold ret at 1.
    rewrite IH. simpl. now rewrite Nat.add_succ_r.
Qed.

(** What [wrapped] returns on a node whose schema is a dictionary and
    whose properties or definitions are a dictionary [d], or missing. *)
Lemma wrapped_dict self attr key named sd d st :
  val (schema self) = JDict sd ->
  attr = "properties" \/ attr = "definitions" ->
  default (JDict []) (dict_get sd attr) = JDict d ->
  exists entries,
    wrapped self attr key named st
    = (Ok (dict_of (children self entries key named d (next_id st))),
       State (List.length d + next_id st) (_cached_references st)) /\
    (d <> [] ->
     base entries = base (schema self) /\ path entries = path (schema self) ++ [attr]).
Proof.
  intros H A D. unfold wrapped, __getattr__. rewrite H.
  assert (E : dict_get attr_defaults attr = Some (JDict [])) by now destruct A as [->| ->].
  rewrite E. simpl. unfold dict_has.
  destruct (dict_get sd attr) as [v|] eqn:G; simpl in D |- *.
  - subst v. rewrite bind_lift. cbn [val]. eexists. split; [apply wrapped_fold|].
    intros _. now split.
  - injection D as <-. rewrite bind_lift. cbn [val].
    exists (Obj 0 [attr] (JDict [])). split; [now destruct st|]. congruence.
Qed.

Lemma keys_children self entries key named d id :
  keys (children self entries key named d id) = map key (keys d).
Proof.
  revert id. induction d as [|[k v] d IH]; intros id; simpl; [reflexivity|].
  now rewrite IH.
Qed.

Lemma children_app self entries key named d1 d2 id :
  children self entries key named (d1 ++ d2) id =
  children self entries key named d1 id
  ++ children self entries key named d2 (List.length d1 + id).
Proof.
  revert id. induction d1 as [|[k v] d1 IH]; intros id; simpl; [reflexivity|].
  now rewrite IH, Nat.add_succ_r.
Qed.

(** A child among the children is the child of one entry. *)
Lemma children_split self entries key named d :
  forall id B l c A,
    children self entries key named d id = B ++ (l, c) :: A ->
    exists before k v after,
      d = before ++ (k, v) :: after /\
      l = key k /\
      c = Instance_ (List.length before + id)
            (Obj (base entries) (path entries ++ [k]) v)
            (child_context self (Obj (base entries) (path entries ++ [k]) v))
            (Some (oid self)) (named k) /\
      keys A = map key (keys after).
Proof.
  induction d as [|[k v] d IH]; intros id B l c A H; simpl in H.
  - now destruct B.
  - destruct B as [|b B]; simpl in H.
    + injection H as <- <- <-. exists [], k, v, d.
      repeat split. apply keys_children.
    + injection H as _ H.
      destruct (IH _ _ _ _ _ H) as (before & k' & v' & after & -> & -> & -> & K).
      exists ((k, v) :: before), k', v', after. simpl.
      rewrite Nat.add_succ_r. now repeat split.
Qed.

Lemma dict_get_keys {V : Type} (d : list (string * V)) k :
  In k (keys d) -> exists v, dict_get d k = Some v.
Proof.
  intros H. apply dict_has_keys in H. unfold dict_has in H.
  destruct (dict_get d k); [now eexists|discriminate].
Qed.

(** X1 - [wrapped_definitions] on a node whose schema is a dictionary and
    whose definitions are a dictionary, or missing: one child is made
    for each definition; the result holds each lower-cased name once,
    and under it the child of the last definition with that lower-cased
    name, which keeps the name as it is written. *)
Theorem wrapped_definitions_by_lowercase {unicode : Unicode} self sd defs st :
  val (schema self) = JDict sd ->
  default (JDict []) (dict_get sd "definitions") = JDict defs ->
  exists res,
    wrapped_definitions self st
    = (Ok res, State (List.length defs + next_id st) (_cached_references st)) /\
    List.NoDup (keys res) /\
    (forall k, In k (keys defs) -> In (lower k) (keys res)) /\
    (forall l c,
       dict_get res l = Some c ->
       exists before k v after,
         defs = before ++ (k, v) :: after /\
         lower k = l /\
         ~ In l (map lower (keys after)) /\
         name c = Some k /\ val (schema c) = v /\
         parent c = Some (oid self) /\
         oid c = (List.length before + next_id st)%nat).
Proof.
  intros H D.
  destruct (wrapped_dict self "definitions" lower Some sd defs st H (or_intror eq_refl) D)
    as (entries & E & _).
  eexists. split; [exact E|].
  split; [apply NoDup_dict_update; constructor|].
  split.
  - intros k Hk. apply dict_has_keys. unfold dict_has, dict_of.
    rewrite dict_get_update.
    destruct (dict_get_keys (rev (children self entries lower Some defs (next_id st)))
                (lower k)) as [c ->]; [|reflexivity].
    unfold keys. rewrite map_rev. apply in_rev. rewrite rev_involutive.
    fold (keys (children self entries lower Some defs (next_id st))).
    rewrite keys_children. now apply in_map.
  - intros l c G. unfold dict_of in G. rewrite dict_get_update in G.
    destruct (dict_get (rev _) l) as [c'|] eqn:R; [|discriminate G].
    injection G as ->.
    destruct (dict_get_rev_last _ _ _ R) as (B & A & S & N).
    destruct (children_split _ _ _ _ _ _ _ _ _ _ S)
      as (before & k & v & after & -> & -> & -> & K).
    exists before, k, v, after. rewrite K in N. now repeat split.
Qed.

(** Two definitions whose names differ by the case only. *)
Lemma wrapped_definitions_by_lowercase_witness :
  exists res c,
    fst (wrapped_definitions (unicode := Sample.unicode)
           (Sample.root_of
              (JDict [("definitions",
                       JDict [("État", JDict [("type", JStr "string")]);
                              ("état", JDict [("type", JStr "object")])])]))
           Sample.start) = Ok res /\
    keys res = ["état"] /\
    dict_get res "état" = Some c /\ name c = Some "état" /\
    val (schema c) = JDict [("type", JStr "object")].
Proof.
  destruct (wrapped_definitions_by_lowercase (unicode := Sample.unicode)
              (Sample.root_of
                 (JDict [("definitions",
                          JDict [("État", JDict [("type", JStr "string")]);
                                 ("état", JDict [("type", JStr "object")])])]))
              _ _ Sample.start eq_refl eq_refl) as (res & E & _).
  exists res. vm_compute in E. injection E as <-.
  eexists. repeat split.
Defined.

(** X2 - [wrapped_properties] on a node whose schema is a dictionary and
    whose properties are a dictionary with distinct keys, or missing:
    the children are in the order of the properties, under their names;
    reading the schema of each child gives the properties back; the
    children have no name, [self] for parent and identities that follow
    one another; the cache is left as it is. *)
Theorem wrapped_properties_in_order self sd props st :
  val (schema self) = JDict sd ->
  default (JDict []) (dict_get sd "properties") = JDict props ->
  List.NoDup (keys props) ->
  exists res,
    wrapped_properties self st
    = (Ok res, State (List.length props + next_id st) (_cached_references st)) /\
    map (fun c => (fst c, val (schema (snd c)))) res = props /\
    Forall (fun c => name (snd c) = None /\ parent (snd c) = Some (oid self)) res /\
    map (fun c => oid (snd c)) res = seq (next_id st) (List.length props).
Proof.
  intros H D N.
  destruct (wrapped_dict self "properties" (fun n => n) (fun _ => None) sd props st H
              (or_introl eq_refl) D) as (entries & E & _).
  eexists. split; [exact E|].
  unfold dict_of. rewrite dict_update_fresh
    by (simpl; rewrite keys_children, map_id; exact N).
  simpl. clear E D N. generalize (next_id st) as id.
  induction props as [|[k v] props IH]; intros id; simpl.
  - repeat split. constructor.
  - destruct (IH (S id)) as (R & F & O).
    rewrite R, O. repeat split. constructor; [now split|exact F].
Qed.

Lemma wrapped_properties_in_order_witness :
  exists res,
    fst (wrapped_properties (Sample.root_of Sample.foo_bar) Sample.start) = Ok res /\
    keys res = ["foo"; "bar"] /\
    map (fun c => oid (snd c)) res = [7; 8]%nat.
Proof.
  destruct (wrapped_properties_in_order (Sample.root_of Sample.foo_bar) _ _ Sample.start
              eq_refl eq_refl) as (res & E & R & _ & O).
  - repeat constructor; simpl; intuition discriminate.
  - exists res. vm_compute in E. injection E as <-. repeat split.
Defined.

(** ** The branches of the dispatch *)

Lemma in_simple_types t :
  in_strs (JStr t) simple_types = true <-> In t simple_types.
Proof.
  unfold in_strs. rewrite existsb_exists. split.
  - intros (x & Hx & E). simpl in E. apply String.eqb_eq in E. now subst.
  - intros H. exists t. split; [exact H|]. simpl. apply String.eqb_refl.
Qed.

(** An object below the root of its document is not the root. *)
Lemma below_is_not_root (o root : obj) p :
  base o = base root -> path o = path root ++ p -> p <> [] -> is_ root o = false.
Proof.
  intros _ P N. unfold is_. apply andb_false_intro2. apply bool_decide_eq_false.
  rewrite P. intros E. apply N.
  rewrite <- (app_nil_r (path root)) in E at 1.
  now apply app_inv_head in E.
Qed.

Section Branches.

Context {unicode : Unicode}.

Variable construct_function_call :
  string -> list pyarg -> list (string * pyarg) -> string.

Lemma trait_code_primitive_type fuel self d n st :
  val (schema self) = JDict d ->
  no_dispatched_key d ->
  dict_get d "type" = Some (JStr n) ->
  In n simple_types ->
  trait_code construct_function_call (S fuel) self st
  = (Ok (construct_function_call (primitive_class n) [] []), st).
Proof.
  intros H N T I.
  rewrite (trait_code_on_type construct_function_call fuel self d st H N), T.
  simpl in I. now repeat destruct I as [<-|I].
Qed.

(** X3 - A node of a primitive type that has none of the keys dispatched
    before the type: the trait is the call, without arguments, of the
    traitlet of the type; no other node is made and the state is left
    as it is. *)
Theorem primitive_type_marker fuel self d n st :
  val (schema self) = JDict d ->
  no_dispatched_key d ->
  dict_get d "type" = Some (JStr n) ->
  In n simple_types ->
  trait_code construct_function_call (S fuel) self st
  = (Ok (construct_function_call (primitive_class n) [] []), st)
  /\ In (n, primitive_class n)
        [("boolean", "jst.JSONBoolean"); ("null", "jst.JSONNull");
         ("number", "jst.JSONNumber"); ("integer", "jst.JSONInteger");
         ("string", "jst.JSONString")].
Proof.
  intros H N T I. split.
  - exact (trait_code_primitive_type fuel self d n st H N T I).
  - simpl in I. repeat destruct I as [<-|I]; simpl; tauto.
Qed.

(** X4 - A node with [enum] and with none of [not], [$ref], [anyOf], [allOf]
    and [oneOf]: the trait is [jst.JSONEnum] on the value of [enum] as
    it is, whatever the type of the node is, and be it no valid type. *)
Theorem enum_before_type fuel self d values st :
  val (schema self) = JDict d ->
  (forall k, In k ["not"; "$ref"; "anyOf"; "allOf"; "oneOf"] -> dict_has d k = false) ->
  dict_get d "enum" = Some values ->
  trait_code construct_function_call (S fuel) self st
  = (Ok (construct_function_call "jst.JSONEnum" [Repr values] []), st).
Proof.
  intros H N E. cbn [trait_code].
  rewrite ?(type_dict self _ H), ?(contains_dict self _ _ H), ?bind_lift.
  rewrite !N by (simpl; tauto).
  unfold dict_has. rewrite E, bind_lift, H. simpl. now rewrite E.
Qed.

(** X5 - A node of type ["array"] with none of the keys dispatched before the
    type and with [items]: a list of items is refused; any other value
    is wrapped as a child without a name, and the trait is
    [jst.JSONArray] on the trait of the child, or the failure of the
    child; a child of a primitive type gives the array of its
    traitlet. *)
Theorem array_of_items fuel self d items st :
  val (schema self) = JDict d ->
  no_dispatched_key d ->
  dict_get d "type" = Some (JStr "array") ->
  dict_get d "items" = Some items ->
  let s := Obj (base (schema self)) (path (schema self) ++ ["items"]) items in
  let child := Instance_ (next_id st) s (child_context self s) (Some (oid self)) None in
  let st1 := State (S (next_id st)) (_cached_references st) in
  (is_list items = true ->
   trait_code construct_function_call (S fuel) self st
   = (Raise (NotImplementedError "'items' keyword as list"), st)) /\
  (is_list items = false ->
   trait_code construct_function_call (S fuel) self st
   = match trait_code construct_function_call fuel child st1 with
     | (Ok itemtype, st') =>
         (Ok (construct_function_call "jst.JSONArray" [Variable_ itemtype] []), st')
     | (Raise e, st') => (Raise e, st')
     end) /\
  (forall id n,
     items = JDict id -> no_dispatched_key id ->
     dict_get id "type" = Some (JStr n) -> In n simple_types ->
     trait_code construct_function_call (S (S fuel)) self st
     = (Ok (construct_function_call "jst.JSONArray"
              [Variable_ (construct_function_call (primitive_class n) [] [])] []),
        st1)).
Proof.
  intros H N T I s child st1.
  assert (E : forall f,
             trait_code construct_function_call (S f) self st =
             if is_list items
             then (Raise (NotImplementedError "'items' keyword as list"), st)
             else match trait_code construct_function_call f child st1 with
                  | (Ok itemtype, st') =>
                      (Ok (construct_function_call "jst.JSONArray"
                             [Variable_ itemtype] []), st')
                  | (Raise e, st') => (Raise e, st')
                  end).
  { intros f.
    rewrite (trait_code_on_type construct_function_call f self d st H N), T.
    cbn -[trait_code bind]. rewrite bind_lift. unfold sub. rewrite H. simpl getitem.
    rewrite I. cbn -[trait_code bind make_child].
    destruct (is_list items); [reflexivity|].
    unfold bind. rewrite make_child_ok. fold s. fold st1.
    unfold child, child_context.
    now destruct (trait_code construct_function_call f _ st1) as [[c|e] st']. }
  split; [intros L; now rewrite E, L|].
  split; [intros L; now rewrite E, L|].
  intros id n -> Nid Tn In_. rewrite E. simpl is_list. cbv iota.
  now rewrite (trait_code_primitive_type fuel child id n st1 eq_refl Nid Tn In_).
Qed.

Lemma dict_get_NoDup {V : Type} (d : list (string * V)) k v :
  List.NoDup (keys d) -> In (k, v) d -> dict_get d k = Some v.
Proof.
  induction d as [|[k0 v0] d IH]; simpl; [tauto|].
  intros N [E|I].
  - injection E as -> ->. now rewrite String.eqb_refl.
  - apply List.NoDup_cons_iff in N. destruct N as [N0 N].
    destruct (String.eqb_spec k k0) as [->|_]; [|now apply IH].
    exfalso. apply N0. change k0 with (fst (k0, v)). now apply in_map.
Qed.

(** X6 - A property that is an object written in place, without [$ref], in a
    document that is not empty: the child that [wrapped_properties]
    makes for it has no name and is not the root, and its [trait_code]
    fails on the class name, in any state. *)
Theorem inline_object_property_is_refused fuel self sd props k pd st :
  val (schema self) = JDict sd ->
  default (JDict []) (dict_get sd "properties") = JDict props ->
  List.NoDup (keys props) ->
  truthy (val (context self)) = true ->
  inside (schema self) (context self) ->
  dict_get props k = Some (JDict pd) ->
  no_dispatched_key pd ->
  dict_get pd "type" = None \/ dict_get pd "type" = Some (JStr "object") ->
  exists res c st1,
    wrapped_properties self st = (Ok res, st1) /\
    dict_get res k = Some c /\
    forall st2,
      trait_code construct_function_call (S fuel) c st2
      = (Raise (NotImplementedError "Anonymous class name"), st2).
Proof.
  intros H D N Tr (Hb & p & Hp) G Nd Ty.
  destruct (wrapped_dict self "properties" (fun n => n) (fun _ => None) sd props st H
              (or_introl eq_refl) D) as (entries & E & Hent).
  destruct Hent as [Eb Ep]; [intros ->; discriminate G|].
  unfold dict_of in E. rewrite dict_update_fresh in E
    by (simpl; rewrite keys_children, map_id; exact N).
  simpl in E.
  assert (Kn : List.NoDup (keys (children self entries (fun n => n) (fun _ => None) props
                                   (next_id st))))
    by (rewrite keys_children, map_id; exact N).
  destruct (dict_get_keys (children self entries (fun n => n) (fun _ => None) props
                             (next_id st)) k) as [c Gc].
  { rewrite keys_children, map_id. change k with (fst (k, JDict pd)).
    apply in_map. now apply dict_get_In. }
  eexists. exists c. eexists. split; [exact E|]. split; [exact Gc|].
  destruct (in_split _ _ (dict_get_In _ _ _ Gc)) as (B & A & S).
  destruct (children_split _ _ _ _ _ _ _ _ _ _ S)
    as (before & k' & v & after & -> & <- & -> & _).
  assert (V : v = JDict pd).
  { assert (I : In (k, v) (before ++ (k, v) :: after))
      by (apply in_or_app; right; now left).
    rewrite (dict_get_NoDup _ _ _ N I) in G. now injection G. }
  subst v. intros st2.
  match goal with
  | |- trait_code _ _ ?c _ = _ =>
      rewrite (trait_code_on_type construct_function_call fuel c pd st2 eq_refl Nd)
  end.
  assert (C : forall t, eq_str t "object" = true -> in_strs t simple_types = false
                        /\ eq_str t "array" = false).
  { intros [] Ht; try discriminate Ht. simpl in Ht. apply String.eqb_eq in Ht. now subst. }
  assert (O : eq_str (default (JStr "object") (dict_get pd "type")) "object" = true)
    by now destruct Ty as [->| ->].
  cbv zeta. destruct (C _ O) as [-> ->]. rewrite O, bind_lift.
  rewrite classname_unnamed by now left.
  unfold is_root. cbn [context schema]. unfold child_context. rewrite Tr.
  rewrite (below_is_not_root _ (context self) (p ++ ["properties"; k])).
  - unfold is_reference. cbn [schema val contains].
    now rewrite (Nd "$ref") by (simpl; tauto).
  - cbn [base]. congruence.
  - cbn [path]. rewrite Ep, Hp, <- !app_assoc. reflexivity.
  - now destruct p.
Qed.

End Branches.

(** The type ["foo"] beside [enum], an array of numbers and an array
    with a list of items. *)
Lemma enum_before_type_witness :
  trait_code Sample.construct_function_call 1
    (Sample.child_of Sample.foo_bar
       (JDict [("type", JStr "foo"); ("enum", JList [JStr "a"; JStr "b"])]))
    Sample.start
  = (Ok (Sample.construct_function_call "jst.JSONEnum"
           [Repr (JList [JStr "a"; JStr "b"])] []), Sample.start).
Proof.
  apply (enum_before_type Sample.construct_function_call 0
           (Sample.child_of Sample.foo_bar
              (JDict [("type", JStr "foo"); ("enum", JList [JStr "a"; JStr "b"])]))
           _ _ Sample.start eq_refl).
  - intros k Hk. simpl in Hk. now repeat destruct Hk as [<-|Hk].
  - reflexivity.
Defined.

Lemma primitive_type_marker_witness :
  trait_code Sample.construct_function_call 1
    (Sample.child_of Sample.foo_bar
       (JDict [("type", JStr "number"); ("minimum", JInt 0)]))
    Sample.start
  = (Ok "jst.JSONNumber()", Sample.start).
Proof.
  apply (proj1 (primitive_type_marker Sample.construct_function_call 0
                  (Sample.child_of Sample.foo_bar
                     (JDict [("type", JStr "number"); ("minimum", JInt 0)]))
                  _ "number" Sample.start eq_refl
                  ltac:(intros k Hk; simpl in Hk; now repeat destruct Hk as [<-|Hk])
                  eq_refl ltac:(simpl; tauto))).
Defined.

Lemma array_of_items_witness :
  fst (trait_code Sample.construct_function_call 2
         (Sample.child_of Sample.foo_bar
            (JDict [("type", JStr "array"); ("items", JDict [("type", JStr "number")])]))
         Sample.start)
  = Ok "jst.JSONArray(jst.JSONNumber())"
  /\ trait_code Sample.construct_function_call 1
       (Sample.child_of Sample.foo_bar
          (JDict [("type", JStr "array"); ("items", JList [])]))
       Sample.start
     = (Raise (NotImplementedError "'items' keyword as list"), Sample.start).
Proof.
  assert (K : forall t i, no_dispatched_key [("type", t); ("items", i)]).
  { intros t i k Hk. simpl in Hk. now repeat destruct Hk as [<-|Hk]. }
  split.
  - rewrite (proj2 (proj2 (array_of_items Sample.construct_function_call 0
               (Sample.child_of Sample.foo_bar
                  (JDict [("type", JStr "array");
                          ("items", JDict [("type", JStr "number")])]))
               _ _ Sample.start eq_refl (K _ _) eq_refl eq_refl))
               [("type", JStr "number")] "number" eq_refl).
    + reflexivity.
    + intros k Hk. simpl in Hk. now repeat destruct Hk as [<-|Hk].
    + reflexivity.
    + simpl; tauto.
  - apply (proj1 (array_of_items Sample.construct_function_call 0
               (Sample.child_of Sample.foo_bar
                  (JDict [("type", JStr "array"); ("items", JList [])]))
               _ _ Sample.start eq_refl (K _ _) eq_refl eq_refl)).
    reflexivity.
Defined.

(** The property [p] of a root, an object written in place. *)
Lemma inline_object_property_is_refused_witness :
  exists res c st1,
    wrapped_properties
      (Sample.root_of
         (JDict [("properties", JDict [("p", JDict [("type", JStr "object")])])]))
      Sample.start = (Ok res, st1) /\
    dict_get res "p" = Some c /\
    forall st2,
      trait_code Sample.construct_function_call 1 c st2
      = (Raise (NotImplementedError "Anonymous class name"), st2).
Proof.
  apply (inline_object_property_is_refused Sample.construct_function_call 0
           (Sample.root_of
              (JDict [("properties", JDict [("p", JDict [("type", JStr "object")])])]))
           _ _ "p" [("type", JStr "object")] Sample.start eq_refl eq_refl).
  - repeat constructor. simpl. tauto.
  - reflexivity.
  - split; [reflexivity|]. now exists [].
  - reflexivity.
  - intros k Hk. simpl in Hk. now repeat destruct Hk as [<-|Hk].
  - now right.
Defined.

(** ** The exceptions of the type mapping *)

Lemma raises_only_bind_lift {A B : Type} (P : exn -> Prop) (o : outcome A)
    (k : A -> M B) :
  (forall e, o = Raise e -> P e) ->
  (forall a, o = Ok a -> raises_only P (k a)) ->
  raises_only P (bind (lift o) k).
Proof.
  intros He Hk st e st' H. rewrite bind_lift in H. destruct o as [a|e0].
  - exact (Hk a eq_refl _ _ _ H).
  - injection H as <- _. now apply He.
Qed.

Lemma type_raises self e : type_ self = Raise e -> e = AttributeError.
Proof.
  rewrite type_get. unfold get.
  destruct (val (schema self)); try (now intros [= <-]).
  destruct (dict_get d "type"); discriminate.
Qed.

Lemma type_ok self t : type_ self = Ok t -> exists d, val (schema self) = JDict d.
Proof.
  rewrite type_get. unfold get.
  destruct (val (schema self)); try discriminate. now eexists.
Qed.

Lemma is_object_raises self e : is_object self = Raise e -> e = AttributeError.
Proof.
  unfold is_object. destruct (type_ self) as [t|e0] eqn:T; simpl.
  - destruct (type_ok _ _ T) as [d Hd].
    destruct (eq_str t "object"); [|discriminate].
    unfold is_reference. now rewrite Hd.
  - intros [= <-]. exact (type_raises _ _ T).
Qed.

Lemma getitem_contained v k e :
  contains k v = Ok true -> (exists d, v = JDict d) -> getitem v k = Raise e -> False.
Proof.
  intros C [d ->]. simpl in *. unfold dict_has in C.
  destruct (dict_get d k); discriminate.
Qed.

Lemma classname_raises self e :
  classname self = Raise e ->
  e = NotImplementedError "Anonymous class name" \/ e = AttributeError \/ e = TypeError.
Proof.
  unfold classname.
  destruct (match name self with Some s => _ | None => _ end); [discriminate|].
  destruct (is_root self); [discriminate|].
  unfold is_reference, contains, getitem.
  destruct (val (schema self)); simpl; try (intros [= <-]; tauto).
  - destruct (is_infix "$ref" s); intros [= <-]; tauto.
  - destruct (existsb _ l); intros [= <-]; tauto.
  - unfold dict_has. destruct (dict_get d "$ref") as [[]|]; simpl;
      try discriminate; intros [= <-]; tauto.
Qed.

Lemma sub_items_raises o e :
  sub o "items" = Raise e -> e = KeyError "items" \/ e = TypeError.
Proof.
  unfold sub, getitem. destruct (val o); simpl; try (intros [= <-]; tauto).
  destruct (dict_get d "items"); simpl; [discriminate|]. intros [= <-]. tauto.
Qed.

(** A resolution raises one of the two [ValueError]s about the code, a
    [TypeError] or an [AttributeError], and then leaves the state as it
    is. *)
Lemma get_reference_raises_precisely self ref cache st e st' :
  get_reference self ref cache st = (Raise e, st') ->
  (e = invalid_reference ref \/ e = unresolved_reference ref \/
   e = TypeError \/ e = AttributeError) /\ st' = st.
Proof.
  intros H. unfold get_reference, bind in H.
  destruct ((if cache then cache_lookup ref else ret None) st) as [[hit|e0] st0] eqn:E.
  - assert (st0 = st) as ->.
    { destruct cache; [|now injection E].
      unfold cache_lookup in E. destruct ref; now injection E. }
    destruct hit as [w|]; [discriminate H|].
    destruct ref; try (injection H as <- <-; tauto).
    destruct (negb _); [injection H as <- <-; tauto|].
    destruct (walk _ _) as [o|e1] eqn:W.
    + rewrite make_child_ok in H. destruct cache; discriminate H.
    + destruct (walk_raises _ _ _ W) as [->|[k ->]]; injection H as <- <-; tauto.
  - injection H as <- <-.
    destruct cache; [|discriminate E].
    unfold cache_lookup in E. destruct ref; try discriminate E;
      injection E as <- <-; tauto.
Qed.

Lemma foreseen_raw e : raw_error e = true -> foreseen e.
Proof. now right. Qed.

Lemma foreseen_condition e c : condition_of e = Some c -> foreseen e.
Proof. intros H. left. now exists c. Qed.

Section Foreseen.

Context {unicode : Unicode}.

Variable construct_function_call :
  string -> list pyarg -> list (string * pyarg) -> string.

Lemma traitlet_map_primitive t e :
  in_strs (JStr t) simple_types = true -> getitem traitlet_map t = Raise e -> False.
Proof.
  intros I H. apply in_simple_types in I. simpl in I.
  repeat destruct I as [<-|I]; try discriminate H. contradiction.
Qed.

Lemma call_info_primitive t info e :
  in_strs (JStr t) simple_types = true ->
  getitem traitlet_map t = Ok info ->
  call_info construct_function_call info = Raise e -> False.
Proof.
  intros I G H. apply in_simple_types in I. simpl in I.
  repeat destruct I as [<-|I]; try (injection G as <-; discriminate H). contradiction.
Qed.

Ltac foreseen_step :=
  match goal with
  | |- raises_only _ (bind (lift _) _) =>
      apply raises_only_bind_lift; [intros ? ?|intros ? ?]
  | |- raises_only _ (bind _ _) => apply raises_only_bind; [|intro]
  | |- raises_only _ (ret _) => apply raises_only_ret
  | |- raises_only _ (lift _) => apply raises_only_lift; intros ? ?
  | |- raises_only _ (make_child _ _ _) => apply make_child_raises
  | |- raises_only _ alloc => apply alloc_raises
  | |- raises_only _ (mapM _ _) => apply raises_only_mapM; intro
  | |- raises_only _ (raise _) => apply raises_only_raise
  | |- raises_only _ (if ?b then _ else _) => destruct b eqn:?
  | |- raises_only _ (get_reference _ _ _) =>
      let H := fresh in
      intros ? ? ? H; apply get_reference_raises_precisely in H;
      destruct H as [[->|[->|[->| ->]]] _]
  end.

Ltac foreseen_leaf :=
  match goal with
  | H : type_ _ = Raise _ |- _ => apply type_raises in H; subst; now right
  | H : is_object _ = Raise _ |- _ => apply is_object_raises in H; subst; now right
  | H : classname _ = Raise _ |- _ =>
      apply classname_raises in H; destruct H as [->|[->| ->]];
      [left; now eexists|now right|now right]
  | H : sub _ "items" = Raise _ |- _ =>
      apply sub_items_raises in H; destruct H as [->| ->]; now right
  | H : contains _ _ = Raise _, T : type_ _ = Ok _ |- _ =>
      apply type_ok in T; destruct T as [? T]; rewrite T in H; discriminate H
  | H : getitem (val (schema _)) _ = Raise _, T : type_ _ = Ok _,
    C : contains _ _ = Ok true |- _ =>
      exfalso; exact (getitem_contained _ _ _ C (type_ok _ _ T) H)
  | H : getitem traitlet_map _ = Raise _, I : in_strs _ _ = true |- _ =>
      exfalso; exact (traitlet_map_primitive _ _ I H)
  | H : call_info _ _ = Raise _, G : getitem traitlet_map _ = Ok _,
    I : in_strs _ _ = true |- _ =>
      exfalso; exact (call_info_primitive _ _ _ I G H)
  | |- foreseen (invalid_reference _) => left; now eexists
  | |- foreseen (unresolved_reference _) => left; now eexists
  | |- foreseen (NotImplementedError _) => left; now eexists
  | |- foreseen (ValueError _) => left; now eexists
  | |- foreseen TypeError => now right
  | |- foreseen AttributeError => now right
  | |- foreseen RecursionError => now right
  end.

Lemma trait_code_foreseen fuel :
  forall self, raises_only foreseen (trait_code construct_function_call fuel self).
Proof.
  induction fuel as [|fuel IH]; intros self.
  - apply raises_only_raise. now right.
  - cbn [trait_code]. repeat foreseen_step; try foreseen_leaf; try apply IH.
    all: match goal with
         | |- raises_only _ (match ?t with JNull => _ | _ => _ end) => destruct t
         end.
    all: repeat foreseen_step; try foreseen_leaf; try apply IH.
Qed.

(** X7 - Whatever the node and the state, an exception of [trait_code] is
    one of the conditions of the specification, the [KeyError] of a
    missing [items], a [TypeError], an [AttributeError] or a
    [RecursionError]; it is never another [KeyError] and never an
    [AssertionError]. *)
Theorem trait_code_raises_foreseen fuel self st e st' :
  trait_code construct_function_call fuel self st = (Raise e, st') ->
  foreseen e /\ e <> AssertionError /\ forall k, e = KeyError k -> k = "items".
Proof.
  intros H. pose proof (trait_code_foreseen fuel self st e st' H) as F.
  split; [exact F|]. destruct F as [[c C]|R].
  - split; [intros ->; discriminate C|]. intros k ->. discriminate C.
  - split; [intros ->; discriminate R|]. intros k ->. simpl in R.
    now apply String.eqb_eq in R.
Qed.

End Foreseen.

(** The array without items, which raises the one [KeyError]. *)
Lemma trait_code_raises_foreseen_witness :
  foreseen (KeyError "items") /\ KeyError "items" <> AssertionError.
Proof.
  destruct (trait_code_raises_foreseen Sample.construct_function_call 1
              (Sample.child_of Sample.foo_bar (JDict [("type", JStr "array")]))
              Sample.start (KeyError "items") Sample.start eq_refl) as (F & N & _).
  split; [exact F|exact N].
Defined.

(** ** What the calls keep of the state *)

Lemma later_refl st : later st st.
Proof. split; [lia|reflexivity]. Qed.

Lemma later_trans st1 st2 st3 : later st1 st2 -> later st2 st3 -> later st1 st3.
Proof. intros [N1 C1] [N2 C2]. split; [lia|]. now transitivity (_cached_references st2). Qed.

Lemma keeps_ret {A : Type} (a : A) : keeps later (ret a).
Proof. intros st r st' [= _ <-]. apply later_refl. Qed.

Lemma keeps_raise {A : Type} (e : exn) : keeps later (raise (A := A) e).
Proof. intros st r st' [= _ <-]. apply later_refl. Qed.

Lemma keeps_lift {A : Type} (o : outcome A) : keeps later (lift o).
Proof. intros st r st' [= _ <-]. apply later_refl. Qed.

Lemma keeps_bind {A B : Type} (m : M A) (k : A -> M B) :
  keeps later m -> (forall a, keeps later (k a)) -> keeps later (bind m k).
Proof.
  intros Hm Hk st r st' H. unfold bind in H.
  destruct (m st) as [[a|e] st0] eqn:E.
  - exact (later_trans _ _ _ (Hm _ _ _ E) (Hk a _ _ _ H)).
  - injection H as _ <-. exact (Hm _ _ _ E).
Qed.

Lemma keeps_mapM {A B : Type} (f : A -> M B) (l : list A) :
  (forall a, keeps later (f a)) -> keeps later (mapM f l).
Proof.
  intros Hf. induction l as [|x l IH]; cbn [mapM].
  - apply keeps_ret.
  - apply keeps_bind; [apply Hf|]. intros y.
    apply keeps_bind; [exact IH|]. intros ys. apply keeps_ret.
Qed.

Lemma keeps_foldM {A B : Type} (f : B -> A -> M B) (l : list A) :
  (forall b a, keeps later (f b a)) -> forall acc, keeps later (foldM f l acc).
Proof.
  intros Hf. induction l as [|x l IH]; intros acc; cbn [foldM].
  - apply keeps_ret.
  - apply keeps_bind; [apply Hf|]. exact IH.
Qed.

Lemma keeps_alloc : keeps later alloc.
Proof. intros st r st' [= _ <-]. split; simpl; [lia|reflexivity]. Qed.

Lemma keeps_make_child self s n : keeps later (make_child self s n).
Proof.
  intros st r st' H. rewrite make_child_ok in H. injection H as _ <-.
  split; simpl; [lia|reflexivity].
Qed.

Lemma keeps_template_attr {A : Type} (m : M A) :
  keeps later m -> keeps later (template_attr m).
Proof.
  intros Hm st r st' H. unfold template_attr in H.
  destruct (m st) as [[a|e] st0] eqn:E.
  - injection H as _ <-. exact (Hm _ _ _ E).
  - destruct e; injection H as _ <-; exact (Hm _ _ _ E).
Qed.

(** After a resolution with the cache that returns, the cache holds the
    node under the code. *)
Lemma get_reference_cached self ref st w st1 :
  get_reference self ref true st = (Ok w, st1) ->
  exists s, ref = JStr s /\ _cached_references st1 !! s = Some w.
Proof.
  intros H. destruct (get_reference_ok_string _ _ _ _ _ _ H) as [s ->].
  exists s. split; [reflexivity|].
  destruct (_cached_references st !! s) as [w0|] eqn:E.
  - rewrite (get_reference_hit self s w0 st E) in H. now injection H as <- <-.
  - rewrite (get_reference_miss self s true st (fun _ => E)) in H.
    destruct (negb _); [discriminate H|].
    destruct (walk _ _) as [o|e] eqn:W; [|destruct e; discriminate H].
    injection H as <- <-. simpl. apply lookup_insert_eq.
Qed.

Lemma keeps_get_reference self ref cache : keeps later (get_reference self ref cache).
Proof.
  intros st r st' H. destruct r as [w|e].
  - destruct (get_reference_ok_string _ _ _ _ _ _ H) as [s ->].
    destruct (decide (cache = true /\ exists w0, _cached_references st !! s = Some w0))
      as [[-> [w0 E]]|Hmiss].
    + rewrite (get_reference_hit self s w0 st E) in H. injection H as _ <-.
      apply later_refl.
    + assert (M : cache = true -> _cached_references st !! s = None).
      { intros ->. destruct (_cached_references st !! s) as [w1|] eqn:E; [|reflexivity].
        exfalso. apply Hmiss. eauto. }
      rewrite (get_reference_miss self s cache st M) in H.
      destruct (negb _); [discriminate H|].
      destruct (walk _ _) as [o|e] eqn:W; [|destruct e; discriminate H].
      injection H as _ <-. split; simpl; [lia|].
      destruct cache; [|reflexivity]. apply insert_subseteq. now apply M.
  - destruct (get_reference_raises_precisely _ _ _ _ _ _ H) as [_ ->].
    apply later_refl.
Qed.

Lemma keeps_wrapped self attr key named : keeps later (wrapped self attr key named).
Proof.
  unfold wrapped. apply keeps_bind; [apply keeps_lift|]. intros entries.
  destruct (val entries); try apply keeps_raise.
  apply keeps_foldM. intros acc kv.
  apply keeps_bind; [apply keeps_make_child|]. intros c. apply keeps_ret.
Qed.

Lemma keeps_imports {unicode : Unicode} self : keeps later (imports self).
Proof.
  rewrite imports_loop. apply keeps_bind; [apply keeps_wrapped|]. intros props.
  apply keeps_foldM. intros acc o. unfold import_step.
  apply keeps_bind; [apply keeps_lift|]. intros [|]; [|apply keeps_ret].
  apply keeps_bind; [apply keeps_lift|]. intros code.
  apply keeps_bind; [apply keeps_get_reference|]. intros ref.
  apply keeps_bind; [apply keeps_lift|]. intros [|]; [|apply keeps_ret].
  apply keeps_bind; [apply keeps_lift|]. intros stmt. apply keeps_ret.
Qed.

Lemma keeps_module_imports {unicode : Unicode} self : keeps later (module_imports self).
Proof.
  unfold module_imports. apply keeps_bind; [apply keeps_wrapped|]. intros defs.
  apply keeps_foldM. intros acc o.
  apply keeps_bind; [apply keeps_lift|]. intros [|]; [|apply keeps_ret].
  apply keeps_bind; [apply keeps_lift|]. intros stmt. apply keeps_ret.
Qed.

Section Later.

Context {unicode : Unicode}.

Variable construct_function_call :
  string -> list pyarg -> list (string * pyarg) -> string.
Variable render :
  option (list string) -> option string -> string ->
  list (string * option string) -> string.
Variable jstraitlets_py : string.
Variable baseobject_py : string.

Ltac keeps_step :=
  match goal with
  | |- keeps later (bind _ _) => apply keeps_bind; [|intro]
  | |- keeps later (ret _) => apply keeps_ret
  | |- keeps later (raise _) => apply keeps_raise
  | |- keeps later (lift _) => apply keeps_lift
  | |- keeps later alloc => apply keeps_alloc
  | |- keeps later (make_child _ _ _) => apply keeps_make_child
  | |- keeps later (get_reference _ _ _) => apply keeps_get_reference
  | |- keeps later (mapM _ _) => apply keeps_mapM; intro
  | |- keeps later (foldM _ _ _) => apply keeps_foldM; intros ? ?
  | |- keeps later (template_attr _) => apply keeps_template_attr
  | |- keeps later (imports _) => apply keeps_imports
  | |- keeps later (module_imports _) => apply keeps_module_imports
  | |- keeps later (wrapped_properties _) => apply keeps_wrapped
  | |- keeps later (wrapped_definitions _) => apply keeps_wrapped
  | |- keeps later (if ?b then _ else _) => destruct b
  | |- keeps later (match ?t with JNull => _ | _ => _ end) => destruct t
  end.

Lemma keeps_trait_code fuel :
  forall self, keeps later (trait_code construct_function_call fuel self).
Proof.
  induction fuel as [|fuel IH]; intros self.
  - apply keeps_raise.
  - cbn [trait_code]. repeat keeps_step; apply IH.
Qed.

Lemma keeps_object_code fuel self :
  keeps later (object_code construct_function_call render fuel self).
Proof. unfold object_code. repeat keeps_step. apply keeps_trait_code. Qed.

Lemma keeps_module_spec fuel self :
  keeps later (module_spec construct_function_call render jstraitlets_py baseobject_py
                 fuel self).
Proof. unfold module_spec. repeat keeps_step; apply keeps_object_code. Qed.

(** X8 - No call takes an entry out of the cache or puts another node under
    a code that is cached, and the allocator never goes back: this
    holds of [get_reference], of [trait_code] and of [module_spec],
    whether they return or raise. *)
Theorem cache_only_grows fuel self st :
  (forall ref cache r st',
     get_reference self ref cache st = (r, st') -> later st st') /\
  (forall r st',
     trait_code construct_function_call fuel self st = (r, st') -> later st st') /\
  (forall r st',
     module_spec construct_function_call render jstraitlets_py baseobject_py fuel self st
     = (r, st') -> later st st').
Proof.
  split; [intros ref cache r st'; apply keeps_get_reference|].
  split; [intros r st'; apply keeps_trait_code|].
  intros r st'. apply keeps_module_spec.
Qed.

(** X9 - A code that was resolved with the cache is resolved to the same
    instance after any later run of [trait_code] and of [module_spec],
    on any node, whatever these runs return or raise. *)
Theorem resolved_instance_is_kept fuel self ref st w st1 other r st2 root m st3 :
  get_reference self ref true st = (Ok w, st1) ->
  trait_code construct_function_call fuel other st1 = (r, st2) ->
  module_spec construct_function_call render jstraitlets_py baseobject_py fuel root st2
  = (m, st3) ->
  forall self',
    get_reference self' ref true st2 = (Ok w, st2) /\
    get_reference self' ref true st3 = (Ok w, st3).
Proof.
  intros G T S self'.
  destruct (get_reference_cached _ _ _ _ _ G) as (s & -> & L).
  pose proof (keeps_trait_code fuel other _ _ _ T) as [_ C2].
  pose proof (keeps_module_spec fuel root _ _ _ S) as [_ C3].
  split; apply get_reference_hit.
  - exact (lookup_weaken _ _ _ _ L C2).
  - exact (lookup_weaken _ _ _ _ (lookup_weaken _ _ _ _ L C2) C3).
Qed.

End Later.

(** The reference to [Foo] of the sample, the trait of an array and the
    assembly of the second document. *)
Lemma cache_only_grows_witness :
  later Sample.start
    (snd (get_reference (Sample.root_of Sample.foo_bar) (JStr "#/definitions/Foo") true
            Sample.start))
  /\ later Sample.start
       (snd (trait_code Sample.construct_function_call 2
               (Sample.child_of Sample.foo_bar
                  (JDict [("$ref", JStr "#/definitions/Bar")])) Sample.start)).
Proof.
  split.
  - refine (proj1 (cache_only_grows (unicode := Sample.unicode)
                     Sample.construct_function_call Sample.render
                     "jst" "base" 0 (Sample.root_of Sample.foo_bar) Sample.start)
              (JStr "#/definitions/Foo") true _ _ _).
    apply surjective_pairing.
  - refine (proj1 (proj2 (cache_only_grows (unicode := Sample.unicode)
                            Sample.construct_function_call Sample.render
                     "jst" "base" 2
                     (Sample.child_of Sample.foo_bar
                        (JDict [("$ref", JStr "#/definitions/Bar")])) Sample.start))
              _ _ _).
    apply surjective_pairing.
Defined.

Lemma resolved_instance_is_kept_witness :
  exists w st3,
    get_reference Sample.other_root (JStr "#/definitions/Foo") true st3 = (Ok w, st3)
    /\ oid w = 7%nat.
Proof.
  destruct (resolved_instance_is_kept (unicode := Sample.unicode)
              Sample.construct_function_call Sample.render
              "jst" "base" 2
              (Sample.root_of Sample.foo_bar) (JStr "#/definitions/Foo") Sample.start
              _ _
              (Sample.child_of Sample.foo_bar (JDict [("$ref", JStr "#/definitions/Bar")]))
              _ _ Sample.other_root _ _
              eq_refl (surjective_pairing _) (surjective_pairing _) Sample.other_root)
    as [_ H].
  eexists. eexists. split; [exact H|reflexivity].
Defined.

(** ** A definition that refers to itself *)

Section Cycle.

Context {unicode : Unicode}.

Variable construct_function_call :
  string -> list pyarg -> list (string * pyarg) -> string.

(** A node whose code is cached on itself: every call asks for one
    more. *)
Lemma trait_code_on_cycle w od s st :
  val (schema w) = JDict od ->
  dict_has od "not" = false ->
  dict_get od "$ref" = Some (JStr s) ->
  _cached_references st !! s = Some w ->
  forall fuel,
    trait_code construct_function_call fuel w st = (Raise RecursionError, st).
Proof.
  intros H N R C. induction fuel as [|fuel IH]; [reflexivity|].
  cbn [trait_code].
  rewrite ?(type_dict w _ H), ?(contains_dict w _ _ H), ?bind_lift.
  rewrite N. rewrite ?(contains_dict w _ _ H), ?bind_lift.
  unfold dict_has. rewrite R, bind_lift, H. unfold getitem. rewrite R.
  rewrite (bind_ok _ _ _ _ _ (get_reference_hit w s w st C)), bind_lift.
  rewrite (is_object_dict w od H). unfold object_typed, dict_has. rewrite R.
  exact IH.
Qed.

(** X10 - A node that refers, without [not], to a definition that refers to
    itself: the reference is followed again and again, and [trait_code]
    ends with a [RecursionError] however deep the stack is. *)
Theorem reference_to_itself_never_returns self d s o od st :
  val (schema self) = JDict d ->
  dict_has d "not" = false ->
  dict_get d "$ref" = Some (JStr s) ->
  cache_agrees (context self) st ->
  first (split "/" s) = "#" ->
  walk (context self) (rest (split "/" s)) = Ok o ->
  val o = JDict od ->
  dict_has od "not" = false ->
  dict_get od "$ref" = Some (JStr s) ->
  forall fuel,
    fst (trait_code construct_function_call fuel self st) = Raise RecursionError.
Proof.
  intros H N R C F W V No Ro [|fuel]; [reflexivity|].
  destruct (get_reference_resolves self s o st C F W) as (w & st1 & G & Sw & _ & _).
  destruct (get_reference_cached _ _ _ _ _ G) as (s' & [= <-] & L).
  cbn [trait_code].
  rewrite ?(type_dict self _ H), ?(contains_dict self _ _ H), ?bind_lift.
  rewrite N. rewrite ?(contains_dict self _ _ H), ?bind_lift.
  unfold dict_has. rewrite R, bind_lift, H. unfold getitem. rewrite R.
  assert (Hw : val (schema w) = JDict od) by (rewrite Sw; exact V).
  rewrite (bind_ok _ _ _ _ _ G), bind_lift.
  rewrite (is_object_dict w od Hw). unfold object_typed, dict_has at 1. rewrite Ro.
  cbn [negb andb].
  now rewrite (trait_code_on_cycle w od s st1 Hw No Ro L).
Qed.

End Cycle.

Lemma reference_to_itself_never_returns_witness :
  fst (trait_code Sample.construct_function_call 1000
         (Sample.child_of document_that_refers_to_itself
            (JDict [("$ref", JStr "#/definitions/A")])) Sample.start)
  = Raise RecursionError.
Proof.
  refine (reference_to_itself_never_returns Sample.construct_function_call
            (Sample.child_of document_that_refers_to_itself
               (JDict [("$ref", JStr "#/definitions/A")]))
            [("$ref", JStr "#/definitions/A")] "#/definitions/A"
            (Obj 1 ["definitions"; "A"] (JDict [("$ref", JStr "#/definitions/A")]))
            [("$ref", JStr "#/definitions/A")] Sample.start eq_refl eq_refl eq_refl
            _ _ _ _ _ _ 1000).
  - intros s w L. simpl in L. rewrite lookup_empty in L. discriminate L.
  - reflexivity.
  - reflexivity.
  - reflexivity.
  - reflexivity.
  - reflexivity.
Defined.

(** ** The imports of the manifest *)

Lemma module_imports_fold {unicode : Unicode} self entries defs :
  Forall (fun kv => fst kv <> "" /\ exists d, snd kv = JDict d) defs ->
  forall id acc st,
    foldM (fun acc o =>
             bind (lift (is_object o))
               (fun b => if b
                         then bind (lift (import_statement o))
                                   (fun stmt => ret (acc ++ [stmt]))
                         else ret acc))
          (values (children self entries lower Some defs id)) acc st
    = (Ok (acc ++ flat_map definition_import defs), st).
Proof.
  induction 1 as [|[k v] defs [Hk [d Hd]] _ IH]; intros id acc st;
    cbn [children values map foldM flat_map].
  - now rewrite app_nil_r.
  - cbn [fst snd] in Hk, Hd. subst v. cbn [snd].
    rewrite bind_bind, bind_lift.
    erewrite is_object_dict by reflexivity.
    unfold definition_import at 1. cbn [fst snd].
    destruct (object_typed (JDict d)).
    + rewrite bind_bind, bind_lift.
      erewrite import_statement_named; [|reflexivity|exact Hk].
      unfold bind at 1. unfold ret at 1. unfold values in IH.
      rewrite IH. now rewrite <- app_assoc.
    + unfold bind at 1. unfold ret at 1. unfold values in IH.
      now rewrite IH.
Qed.

(** X11 - [module_imports] on a node whose definitions are dictionaries with
    names that are not empty and that differ once lower-cased: the
    imports of the definitions that are objects, in the order of the
    definitions; a definition of another type, or a reference, adds
    none. *)
Theorem module_imports_lists_objects {unicode : Unicode} self sd defs st :
  val (schema self) = JDict sd ->
  default (JDict []) (dict_get sd "definitions") = JDict defs ->
  List.NoDup (map lower (keys defs)) ->
  Forall (fun kv => fst kv <> "" /\ exists d, snd kv = JDict d) defs ->
  module_imports self st
  = (Ok (flat_map definition_import defs),
     State (List.length defs + next_id st) (_cached_references st)).
Proof.
  intros H D N F.
  destruct (wrapped_dict self "definitions" lower Some sd defs st H (or_intror eq_refl) D)
    as (entries & E & _).
  unfold module_imports.
  change (wrapped_definitions self) with (wrapped self "definitions" lower Some).
  rewrite (bind_ok _ _ _ _ _ E).
  unfold dict_of. rewrite dict_update_fresh by (simpl; now rewrite keys_children).
  simpl app. apply (module_imports_fold self entries defs F _ []).
Qed.

Lemma module_imports_lists_objects_witness :
  fst (module_imports (unicode := Sample.unicode)
         (Sample.root_of
            (JDict [("definitions",
                     JDict [("État", JDict [("type", JStr "object")]);
                            ("B", JDict [("type", JStr "string")])])]))
         Sample.start)
  = Ok ["from .état import État"].
Proof.
  rewrite (module_imports_lists_objects
             (Sample.root_of
                (JDict [("definitions",
                         JDict [("État", JDict [("type", JStr "object")]);
                                ("B", JDict [("type", JStr "string")])])]))
             _ _ Sample.start eq_refl eq_refl).
  - reflexivity.
  - repeat constructor; simpl; intuition discriminate.
  - repeat constructor; try discriminate; now eexists.
Defined.

(** ** Resolutions that fail *)

(** X12 - A resolution that raises leaves the allocator and the cache as they
    were, and raises one of the two [ValueError]s about the code, a
    [TypeError] or an [AttributeError].  A code that is not a string is
    never resolved: a list or a dictionary cannot be looked up in the
    cache, and no other value can be split.  Without the cache, the
    cache is not touched. *)
Theorem get_reference_failures_are_clean self ref cache st :
  (forall e st',
     get_reference self ref cache st = (Raise e, st') ->
     st' = st /\
     (e = invalid_reference ref \/ e = unresolved_reference ref \/
      e = TypeError \/ e = AttributeError)) /\
  ((forall s, ref <> JStr s) ->
   get_reference self ref cache st
   = (Raise (if cache && match ref with JList _ | JDict _ => true | _ => false end
             then TypeError else AttributeError), st)) /\
  (forall r st',
     get_reference self ref false st = (r, st') ->
     _cached_references st' = _cached_references st).
Proof.
  split; [|split].
  - intros e st' H.
    destruct (get_reference_raises_precisely _ _ _ _ _ _ H) as [E ->]. now split.
  - intros N. destruct ref; try (now destruct cache); now destruct (N s).
  - intros r st' H. destruct r as [w|e].
    + destruct (get_reference_ok_string _ _ _ _ _ _ H) as [s ->].
      rewrite (get_reference_miss self s false st) in H by discriminate.
      destruct (negb _); [discriminate H|].
      destruct (walk _ _) as [o|e] eqn:W; [|destruct e; discriminate H].
      now injection H as _ <-.
    + now destruct (get_reference_raises_precisely _ _ _ _ _ _ H) as [_ ->].
Qed.

(** A code that is a number, and a code that is a list. *)
Lemma get_reference_failures_are_clean_witness :
  get_reference (Sample.root_of Sample.foo_bar) (JInt 1) true Sample.start
  = (Raise AttributeError, Sample.start)
  /\ get_reference (Sample.root_of Sample.foo_bar) (JList []) true Sample.start
     = (Raise TypeError, Sample.start).
Proof.
  split.
  - apply (proj1 (proj2 (get_reference_failures_are_clean
                           (Sample.root_of Sample.foo_bar) (JInt 1) true Sample.start))).
    discriminate.
  - apply (proj1 (proj2 (get_reference_failures_are_clean
                           (Sample.root_of Sample.foo_bar) (JList []) true Sample.start))).
    discriminate.
Defined.

(** ** The segments of a code *)

Lemma split_cons sep s : exists w ws, split sep s = w :: ws.
Proof.
  destruct s as [|c s]; simpl; [now eexists; eexists|].
  destruct (Ascii.eqb c sep); [now eexists; eexists|].
  destruct (split sep s) as [|w ws]; now eexists; eexists.
Qed.

Lemma join_split s : join "/" (split "/" s) = s.
Proof.
  induction s as [|c s IH]; simpl; [reflexivity|].
  destruct (Ascii.eqb_spec c "/") as [->|N].
  - destruct (split_cons "/" s) as (w & ws & E). rewrite E in *.
    change (join "/" ("" :: w :: ws)) with ("" +:+ "/" +:+ join "/" (w :: ws)).
    now rewrite IH.
  - destruct (split_cons "/" s) as (w & ws & E). rewrite E in *.
    destruct ws as [|w' ws].
    + simpl in *. now subst.
    + change (join "/" (String c w :: w' :: ws))
        with (String c (w +:+ "/" +:+ join "/" (w' :: ws))).
      change (join "/" (w :: w' :: ws)) with (w +:+ "/" +:+ join "/" (w' :: ws)) in IH.
      now rewrite IH.
Qed.

Lemma split_segments s : Forall (fun w => has_char "/" w = false) (split "/" s).
Proof.
  induction s as [|c s IH]; simpl; [now repeat constructor|].
  destruct (Ascii.eqb_spec c "/") as [->|N].
  - now constructor.
  - destruct (split "/" s) as [|w ws]; [repeat constructor; simpl|].
    + now destruct (Ascii.eqb_spec c "/").
    + apply Forall_cons in IH. destruct IH as [Hw Hws].
      constructor; [|exact Hws]. simpl. rewrite Hw.
      now destruct (Ascii.eqb_spec c "/").
Qed.

Lemma append_assoc' (a b c : string) : (a +:+ b) +:+ c = a +:+ (b +:+ c).
Proof.
  induction a as [|x a IH]; [reflexivity|].
  change (String x ((a +:+ b) +:+ c) = String x (a +:+ (b +:+ c))). now f_equal.
Qed.

Lemma join_last w ws :
  exists p,
    join "/" (w :: ws) = p +:+ final (w :: ws) /\
    (p = "" \/ exists q, p = q +:+ "/").
Proof.
  revert w. induction ws as [|w' ws IH]; intros w.
  - exists "". split; [reflexivity|now left].
  - destruct (IH w') as (p & E & P).
    exists (w +:+ "/" +:+ p). split.
    + change (join "/" (w :: w' :: ws)) with (w +:+ "/" +:+ join "/" (w' :: ws)).
      change (final (w :: w' :: ws)) with (final (w' :: ws)).
      now rewrite E, !append_assoc'.
    + right. destruct P as [->|[q ->]].
      * exists w. clear. induction w as [|x w IH]; [reflexivity|].
        change (String x (w +:+ "/" +:+ "") = String x (w +:+ "/")). now f_equal.
      * exists (w +:+ "/" +:+ q). now rewrite !append_assoc'.
Qed.

(** X13 - A resolution without the cache that returns: the code is [#], a [/]
    and the segments walked, joined by [/], or [#] alone; the schema of
    the node is what the walk reaches; the name of the node is the text
    of the code after its last [/]. *)
Theorem resolved_name_is_after_last_slash self s w st st' :
  get_reference self (JStr s) false st = (Ok w, st') ->
  s = join "/" ("#" :: rest (split "/" s)) /\
  walk (context self) (rest (split "/" s)) = Ok (schema w) /\
  exists n p,
    name w = Some n /\ s = p +:+ n /\ has_char "/" n = false /\
    (p = "" \/ exists q, p = q +:+ "/").
Proof.
  intros H. rewrite (get_reference_miss self s false st) in H by discriminate.
  destruct (String.eqb_spec (first (split "/" s)) "#") as [F|F]; [|discriminate H].
  simpl in H.
  destruct (walk _ _) as [o|e] eqn:W; [|destruct e; discriminate H].
  injection H as <- _.
  destruct (split_cons "/" s) as (x & xs & E).
  split.
  - rewrite E in F |- *. simpl in F. subst x. cbn [rest tl].
    rewrite <- E. symmetry. apply join_split.
  - split; [reflexivity|].
    destruct (join_last x xs) as (p & J & P).
    exists (final (split "/" s)), p. split; [reflexivity|].
    split; [rewrite E, <- J, <- E; symmetry; apply join_split|].
    split; [|exact P].
    pose proof (split_segments s) as Fs. rewrite E in Fs |- *.
    clear -Fs. revert x Fs. induction xs as [|y xs IH]; intros x Fs.
    + now apply Forall_cons in Fs.
    + apply Forall_cons in Fs. destruct Fs as [_ Fs]. exact (IH y Fs).
Qed.

Lemma resolved_name_is_after_last_slash_witness :
  exists w,
    fst (get_reference (Sample.root_of Sample.foo_bar) (JStr "#/definitions/Foo") false
           Sample.start) = Ok w
    /\ exists n p, name w = Some n /\ "#/definitions/Foo" = p +:+ n
                   /\ has_char "/" n = false.
Proof.
  eexists. split; [reflexivity|].
  destruct (resolved_name_is_after_last_slash (Sample.root_of Sample.foo_bar)
              "#/definitions/Foo" _ Sample.start _ eq_refl)
    as (_ & _ & n & p & N & E & C & _).
  exists n, p. now repeat split.
Defined.

(** ** Roots *)

Lemma walk_path (root : obj) (keys : list string) o :
  walk root keys = Ok o -> base o = base root /\ path o = path root ++ keys.
Proof.
  revert root. induction keys as [|k keys IH]; intros root; simpl.
  - intros [= <-]. now rewrite app_nil_r.
  - unfold sub. destruct (getitem (val root) k) as [x|e]; simpl; [|discriminate].
    intros H. destruct (IH _ H) as [B P]. simpl in B, P.
    split; [exact B|]. now rewrite P, <- app_assoc.
Qed.

Lemma walk_falsy (root : obj) (keys : list string) o :
  truthy (val root) = false -> walk root keys = Ok o -> keys = [].
Proof.
  intros T. destruct keys as [|k keys]; [reflexivity|]. simpl. unfold sub, getitem.
  destruct (val root) as [| | | | |l|d]; simpl; try discriminate.
  destruct d; [discriminate|discriminate T].
Qed.

Lemma is_path (a b : obj) : is_ a b = true -> path a = path b.
Proof.
  unfold is_. intros H. apply andb_true_iff in H. destruct H as [_ H].
  now apply bool_decide_eq_true in H.
Qed.

Section Roots.

Context {unicode : Unicode}.

Variable construct_function_call :
  string -> list pyarg -> list (string * pyarg) -> string.
Variable render :
  option (list string) -> option string -> string ->
  list (string * option string) -> string.
Variable jstraitlets_py : string.
Variable baseobject_py : string.

(** X14 - The node that a resolution without the cache returns is a root
    exactly when the code is [#] alone; for any other code
    [module_spec] refuses the node with an [AssertionError] and changes
    nothing. *)
Theorem resolved_node_is_root_iff_hash self s w st st' :
  get_reference self (JStr s) false st = (Ok w, st') ->
  (is_root w = true <-> s = "#") /\
  (s <> "#" ->
   forall fuel st2,
     module_spec construct_function_call render jstraitlets_py baseobject_py fuel w st2
     = (Raise AssertionError, st2)).
Proof.
  intros H.
  assert (R : is_root w = true <-> s = "#").
  { rewrite (get_reference_miss self s false st) in H by discriminate.
    destruct (String.eqb_spec (first (split "/" s)) "#") as [F|F]; [|discriminate H].
    simpl in H.
    destruct (walk _ _) as [o|e] eqn:W; [|destruct e; discriminate H].
    injection H as <- _.
    destruct (split_cons "/" s) as (x & xs & E).
    assert (Hs : xs = [] <-> s = "#").
    { rewrite E in F. simpl in F. subst x. split.
      - intros ->. rewrite <- (join_split s), E. reflexivity.
      - intros ->. now injection E as <-. }
    rewrite E in W. cbn [rest tl] in W.
    unfold is_root, resolved. cbn [context schema].
    destruct (truthy (val (context self))) eqn:T.
    - destruct (walk_path _ _ _ W) as [B P]. rewrite <- Hs. split.
      + intros I. apply is_path in I. rewrite P in I.
        rewrite <- (app_nil_r (path (context self))) in I at 1.
        now apply app_inv_head in I.
      + intros ->. simpl in W. injection W as <-. apply is_refl.
    - rewrite <- Hs. split; [intros _|intros _; apply is_refl].
      exact (walk_falsy _ _ _ T W). }
  split; [exact R|].
  intros N fuel st2. unfold module_spec.
  destruct (is_root w); [|reflexivity].
  exfalso. apply N. now apply R.
Qed.

End Roots.

Lemma resolved_node_is_root_iff_hash_witness :
  module_spec (unicode := Sample.unicode)
      Sample.construct_function_call Sample.render "jst" "base" 1
    (resolved (Sample.root_of Sample.foo_bar) "#/definitions/Foo"
       (Obj 1 ["definitions"; "Foo"] (JDict [("type", JStr "object")])) Sample.start)
    Sample.start
  = (Raise AssertionError, Sample.start).
Proof.
  refine (proj2 (resolved_node_is_root_iff_hash Sample.construct_function_call
                   Sample.render "jst" "base"
                   (Sample.root_of Sample.foo_bar) "#/definitions/Foo" _ Sample.start _
                   eq_refl) _ 1 Sample.start).
  discriminate.
Defined.

(** ** The cache of one document *)

Section Triples.

Context (P : state -> Prop).

Lemma triple_ret {A : Type} (a : A) (Q : A -> Prop) : Q a -> triple P (ret a) Q.
Proof. intros H st r st' HP [= <- <-]. split; [exact HP|]. now intros ? [= <-]. Qed.

Lemma triple_raise {A : Type} (e : exn) (Q : A -> Prop) : triple P (raise e) Q.
Proof. intros st r st' HP [= <- <-]. split; [exact HP|]. discriminate. Qed.

Lemma triple_lift {A : Type} (o : outcome A) : triple P (lift o) (fun _ => True).
Proof. intros st r st' HP [= <- <-]. now split. Qed.

Lemma triple_bind {A B : Type} (m : M A) (k : A -> M B) (Q : A -> Prop) (R : B -> Prop) :
  triple P m Q -> (forall a, Q a -> triple P (k a) R) -> triple P (bind m k) R.
Proof.
  intros Hm Hk st r st' HP H. unfold bind in H.
  destruct (m st) as [[a|e] st0] eqn:E.
  - destruct (Hm _ _ _ HP E) as [HP0 HQ]. exact (Hk a (HQ a eq_refl) _ _ _ HP0 H).
  - injection H as <- <-. destruct (Hm _ _ _ HP E) as [HP0 _].
    split; [exact HP0|discriminate].
Qed.

Lemma triple_any {A : Type} (m : M A) (Q : A -> Prop) :
  triple P m Q -> triple P m (fun _ => True).
Proof. intros H st r st' HP E. now destruct (H _ _ _ HP E). Qed.

Lemma triple_mapM {A B : Type} (f : A -> M B) (l : list A) :
  (forall a, triple P (f a) (fun _ => True)) -> triple P (mapM f l) (fun _ => True).
Proof.
  intros Hf. induction l as [|x l IH]; cbn [mapM].
  - now apply triple_ret.
  - eapply triple_bind; [apply Hf|]. intros y _.
    eapply triple_bind; [exact IH|]. intros ys _. now apply triple_ret.
Qed.

Lemma triple_foldM {A B : Type} (f : B -> A -> M B) (I : B -> Prop) (E : A -> Prop)
    (l : list A) :
  (forall b a, E a -> I b -> triple P (f b a) I) ->
  Forall E l -> forall acc, I acc -> triple P (foldM f l acc) I.
Proof.
  intros Hf. induction 1 as [|x l Hx _ IH]; intros acc Hacc; cbn [foldM].
  - now apply triple_ret.
  - eapply triple_bind; [now apply Hf|]. exact IH.
Qed.

Lemma triple_template_attr {A : Type} (m : M A) :
  triple P m (fun _ => True) -> triple P (template_attr m) (fun _ => True).
Proof.
  intros Hm st r st' HP H. unfold template_attr in H.
  destruct (m st) as [[a|e] st0] eqn:E.
  - injection H as _ <-. split; [|trivial]. now destruct (Hm _ _ _ HP E).
  - destruct (Hm _ _ _ HP E) as [HP0 _].
    destruct e; injection H as _ <-; now split.
Qed.

End Triples.

Lemma Forall_dict_set {V : Type} (Q : V -> Prop) k v (d : list (string * V)) :
  Q v -> Forall (fun c => Q (snd c)) d -> Forall (fun c => Q (snd c)) (dict_set k v d).
Proof.
  intros Hv. induction 1 as [|[k0 v0] d H0 Hd IH]; simpl.
  - now repeat constructor.
  - destruct (String.eqb k k0); constructor; auto.
Qed.

Section OneDocument.

Context {unicode : Unicode}.

Variable root : obj.
Hypothesis root_truthy : truthy (val root) = true.

Lemma triple_alloc : triple (cache_of root) alloc (fun _ => True).
Proof. intros st r st' HP [= <- <-]. now split. Qed.

Lemma triple_make_child self s n :
  context self = root ->
  triple (cache_of root) (make_child self s n) (fun c => context c = root).
Proof.
  intros C st r st' HP H. rewrite make_child_ok in H. injection H as <- <-.
  split; [exact HP|]. intros a [= <-]. simpl. now rewrite C, root_truthy.
Qed.

Lemma triple_get_reference self ref :
  context self = root ->
  triple (cache_of root) (get_reference self ref true) (fun w => context w = root).
Proof.
  intros C st r st' HP H. destruct r as [w|e].
  - destruct (get_reference_ok_string _ _ _ _ _ _ H) as [s ->].
    destruct (_cached_references st !! s) as [w0|] eqn:E.
    + rewrite (get_reference_hit self s w0 st E) in H. injection H as <- <-.
      split; [exact HP|]. intros a [= <-]. now destruct (HP s w0 E).
    + rewrite (get_reference_miss self s true st (fun _ => E)) in H.
      destruct (String.eqb_spec (first (split "/" s)) "#") as [F|F]; [|discriminate H].
      simpl in H. rewrite C in H.
      destruct (walk root (rest (split "/" s))) as [o|e] eqn:W;
        [|destruct e; discriminate H].
      injection H as <- <-.
      assert (Cw : context (resolved self s o st) = root)
        by (unfold resolved; simpl; now rewrite C, root_truthy).
      split; [|now intros a [= <-]].
      intros s' w' L. simpl in L. rewrite lookup_insert in L.
      destruct (decide (s = s')) as [<-|N]; [|exact (HP s' w' L)].
      injection L as <-. split; [|exact Cw]. now repeat split.
  - destruct (get_reference_raises_precisely _ _ _ _ _ _ H) as [_ ->].
    split; [exact HP|discriminate].
Qed.

Lemma triple_wrapped self attr key named :
  context self = root ->
  triple (cache_of root) (wrapped self attr key named)
    (fun res => Forall (fun c => context (snd c) = root) res).
Proof.
  intros C. unfold wrapped.
  eapply triple_bind; [apply triple_lift|]. intros entries _.
  destruct (val entries); try apply triple_raise.
  apply (triple_foldM _ _ _ (fun _ => True)); [|now apply Forall_forall|constructor].
  intros acc kv _ Hacc.
  eapply triple_bind; [now apply triple_make_child|]. intros c Hc.
  apply triple_ret.
  exact (Forall_dict_set (fun c => context c = root) _ _ _ Hc Hacc).
Qed.

Lemma triple_imports self :
  context self = root ->
  triple (cache_of root) (imports self) (fun _ => True).
Proof.
  intros C. rewrite imports_loop.
  eapply triple_bind; [now apply triple_wrapped|]. intros props _.
  apply (triple_foldM _ _ _ (fun _ => True)); [|now apply Forall_forall|exact I].
  intros acc o _ _. unfold import_step.
  eapply triple_bind; [apply triple_lift|]. intros [|] _; [|now apply triple_ret].
  eapply triple_bind; [apply triple_lift|]. intros code _.
  eapply triple_bind; [now apply triple_get_reference|]. intros ref _.
  eapply triple_bind; [apply triple_lift|]. intros [|] _; [|now apply triple_ret].
  eapply triple_bind; [apply triple_lift|]. intros stmt _. now apply triple_ret.
Qed.

Lemma triple_module_imports self :
  context self = root ->
  triple (cache_of root) (module_imports self) (fun _ => True).
Proof.
  intros C. unfold module_imports.
  eapply triple_bind; [now apply triple_wrapped|]. intros defs _.
  apply (triple_foldM _ _ _ (fun _ => True)); [|now apply Forall_forall|exact I].
  intros acc o _ _.
  eapply triple_bind; [apply triple_lift|]. intros [|] _; [|now apply triple_ret].
  eapply triple_bind; [apply triple_lift|]. intros stmt _. now apply triple_ret.
Qed.

Variable construct_function_call :
  string -> list pyarg -> list (string * pyarg) -> string.
Variable render :
  option (list string) -> option string -> string ->
  list (string * option string) -> string.
Variable jstraitlets_py : string.
Variable baseobject_py : string.

Ltac triple_step :=
  match goal with
  | |- triple _ (bind (lift _) _) _ => eapply triple_bind; [apply triple_lift|intros ? _]
  | |- triple _ (bind alloc _) _ => eapply triple_bind; [apply triple_alloc|intros ? _]
  | |- triple _ (bind (make_child _ _ _) _) _ =>
      eapply triple_bind; [apply triple_make_child; assumption|intros ? ?]
  | |- triple _ (bind (get_reference _ _ _) _) _ =>
      eapply triple_bind; [apply triple_get_reference; assumption|intros ? ?]
  | |- triple _ (bind (mapM _ _) _) _ =>
      eapply triple_bind; [apply triple_mapM; intro|intros ? _]
  | |- triple _ (ret _) _ => now apply triple_ret
  | |- triple _ (raise _) _ => apply triple_raise
  | |- triple _ (lift _) _ => apply triple_lift
  | |- triple _ (if ?b then _ else _) _ => destruct b
  | |- triple _ (match ?t with JNull => _ | _ => _ end) _ => destruct t
  end.

Lemma triple_trait_code fuel :
  forall self,
    context self = root ->
    triple (cache_of root) (trait_code construct_function_call fuel self)
      (fun _ => True).
Proof.
  induction fuel as [|fuel IH]; intros self C.
  - apply triple_raise.
  - cbn [trait_code]. repeat triple_step; cbv beta in *;
      try (apply IH; assumption).
    eapply triple_bind; [apply IH; assumption|].
    intros itemtype _. apply triple_ret. exact I.
Qed.

Lemma triple_object_code fuel self :
  context self = root ->
  triple (cache_of root) (object_code construct_function_call render fuel self)
    (fun _ => True).
Proof.
  intros C. unfold object_code.
  eapply triple_bind; [apply triple_template_attr; now apply triple_imports|].
  intros imps _.
  eapply triple_bind; [apply triple_template_attr; apply triple_lift|]. intros c _.
  eapply triple_bind; [now apply triple_wrapped|]. intros props Hp.
  apply (triple_bind _ _ _ (fun _ => True)); [|intros fields _; now apply triple_ret].
  clear -Hp root_truthy.
  induction Hp as [|np props Hn _ IH]; cbn [mapM].
  - now apply triple_ret.
  - eapply triple_bind.
    + eapply triple_bind; [apply triple_template_attr; now apply triple_trait_code|].
      intros code _. now apply (triple_ret _ _ (fun _ => True)).
    + intros y _. eapply triple_bind; [exact IH|]. intros ys _. now apply triple_ret.
Qed.

Lemma triple_module_spec fuel self :
  context self = root ->
  triple (cache_of root)
    (module_spec construct_function_call render jstraitlets_py baseobject_py fuel self)
    (fun _ => True).
Proof.
  intros C. unfold module_spec.
  destruct (negb (is_root self)); [apply triple_raise|].
  eapply triple_bind; [apply triple_lift|]. intros submodroot _.
  eapply triple_bind; [apply triple_lift|]. intros fname _.
  eapply triple_bind; [now apply triple_object_code|]. intros code _.
  eapply triple_bind; [apply triple_lift|]. intros stmt _.
  eapply triple_bind; [now apply triple_module_imports|]. intros mods _.
  eapply triple_bind; [now apply triple_wrapped|]. intros defs Hd.
  apply (triple_bind _ _ _ (fun _ => True)); [|intros files _; now apply triple_ret].
  apply (triple_foldM _ _ (fun _ => True) (fun o => context o = root));
    [| |exact I].
  - intros acc o Ho _.
    eapply triple_bind; [apply triple_lift|]. intros [|] _; [|now apply triple_ret].
    eapply triple_bind; [apply triple_lift|]. intros f _.
    eapply triple_bind; [now apply triple_object_code|]. intros c _.
    now apply triple_ret.
  - unfold values. apply Forall_map. exact Hd.
Qed.

End OneDocument.

Section OneDocumentRun.

Context {unicode : Unicode}.

Variable construct_function_call :
  string -> list pyarg -> list (string * pyarg) -> string.
Variable render :
  option (list string) -> option string -> string ->
  list (string * option string) -> string.
Variable jstraitlets_py : string.
Variable baseobject_py : string.

(** X15 - On a node of a document that is not empty, with a cache that holds
    only nodes of this document under the codes that resolve to them:
    a resolution with the cache returns a node of the document, and
    [get_reference], [trait_code] and [module_spec] leave such a cache,
    whether they return or raise.  The empty cache is such a cache. *)
Theorem one_document_cache_stays_faithful fuel self st :
  truthy (val (context self)) = true ->
  cache_of (context self) st ->
  (forall ref r st',
     get_reference self ref true st = (r, st') ->
     cache_of (context self) st' /\ forall w, r = Ok w -> context w = context self) /\
  (forall r st',
     trait_code construct_function_call fuel self st = (r, st') ->
     cache_of (context self) st') /\
  (forall r st',
     module_spec construct_function_call render jstraitlets_py baseobject_py fuel self st
     = (r, st') -> cache_of (context self) st') /\
  cache_agrees (context self) st /\
  (forall n, cache_of (context self) (State n ∅)).
Proof.
  intros T C. split; [|split; [|split; [|split]]].
  - intros ref r st' H.
    exact (triple_get_reference (context self) T self ref eq_refl st r st' C H).
  - intros r st' H.
    exact (proj1 (triple_trait_code (context self) T construct_function_call fuel self
                    eq_refl st r st' C H)).
  - intros r st' H.
    exact (proj1 (triple_module_spec (context self) T construct_function_call render
                    jstraitlets_py baseobject_py fuel self eq_refl st r st' C H)).
  - intros s w L. now destruct (C s w L).
  - intros n s w L. simpl in L. rewrite lookup_empty in L. discriminate L.
Qed.

End OneDocumentRun.

(** The assembly of the sample document, from the empty cache. *)
Lemma one_document_cache_stays_faithful_witness :
  cache_of (Obj 1 [] Sample.foo_bar)
    (snd (module_spec (unicode := Sample.unicode)
            Sample.construct_function_call Sample.render "jst" "base" 2
            (Sample.root_of Sample.foo_bar) Sample.start)).
Proof.
  refine (proj1 (proj2 (proj2 (one_document_cache_stays_faithful
            Sample.construct_function_call Sample.render "jst" "base" 2
            (Sample.root_of Sample.foo_bar) Sample.start eq_refl _))) _ _
            (surjective_pairing _)).
  intros s w L. simpl in L. rewrite lookup_empty in L. discriminate L.
Defined.

(** ** The files of any module *)

Lemma bind_ok_inv {A B : Type} (m : M A) (k : A -> M B) st b st' :
  bind m k st = (Ok b, st') ->
  exists a st1, m st = (Ok a, st1) /\ k a st1 = (Ok b, st').
Proof.
  unfold bind. destruct (m st) as [[a|e] st1]; [|discriminate].
  intros H. now exists a, st1.
Qed.

Lemma keys_dict_set_in {V : Type} (k : string) (v : V) (d : list (string * V)) k' :
  k' = k \/ In k' (keys d) -> In k' (keys (dict_set k v d)).
Proof.
  rewrite keys_dict_set. destruct (dict_has d k) eqn:H.
  - intros [->|I]; [now apply dict_has_keys|exact I].
  - rewrite in_app_iff. simpl. intuition.
Qed.

Lemma keys_dict_update_in {V : Type} (l d : list (string * V)) k :
  In k (keys d) -> In k (keys (dict_update d l)).
Proof.
  revert d. induction l as [|[k0 v0] l IH]; intros d H; simpl; [exact H|].
  apply IH. apply keys_dict_set_in. now right.
Qed.

Section AnyModule.

Context {unicode : Unicode}.

Variable construct_function_call :
  string -> list pyarg -> list (string * pyarg) -> string.
Variable render :
  option (list string) -> option string -> string ->
  list (string * option string) -> string.
Variable jstraitlets_py : string.
Variable baseobject_py : string.

(** X16 - Whenever [module_spec] returns, the node is a root with a class
    name, and the result holds every file name once and, among them,
    the two shipped files, the file of the root and the manifest. *)
Theorem module_spec_files fuel self st m st' :
  module_spec construct_function_call render jstraitlets_py baseobject_py fuel self st
  = (Ok m, st') ->
  is_root self = true /\
  List.NoDup (keys m) /\
  exists c,
    classname self = Ok c /\
    forall f,
      In f ["jstraitlets.py"; "baseobject.py"; lower c +:+ ".py"; "__init__.py"] ->
      In f (keys m).
Proof.
  unfold module_spec. intros H.
  destruct (is_root self); [|discriminate H]. cbn [negb] in H.
  split; [reflexivity|].
  rewrite bind_lift in H.
  destruct (classname self) as [c|e] eqn:C; [|discriminate H]. cbn [obind] in H.
  rewrite bind_lift in H. unfold filename, modulename in H. rewrite C in H.
  cbn [obind] in H.
  apply bind_ok_inv in H. destruct H as (code & st1 & _ & H).
  rewrite bind_lift in H.
  destruct (import_statement self) as [stmt|e]; [|discriminate H].
  apply bind_ok_inv in H. destruct H as (mods & st2 & _ & H).
  apply bind_ok_inv in H. destruct H as (defs & st3 & _ & H).
  apply bind_ok_inv in H. destruct H as (files & st4 & _ & H).
  injection H as <- _.
  split.
  - apply NoDup_dict_update, NoDup_dict_set. unfold dict_of.
    apply NoDup_dict_update. constructor.
  - exists c. split; [reflexivity|]. intros f Hf.
    apply keys_dict_update_in, keys_dict_set_in.
    destruct Hf as [E|[E|[E|[E|[]]]]]; subst; [right|right|right|left; reflexivity].
    + unfold dict_of, dict_update. cbn [fold_left fst snd].
      do 2 (apply keys_dict_set_in; right). apply keys_dict_set_in. now left.
    + unfold dict_of, dict_update. cbn [fold_left fst snd].
      apply keys_dict_set_in. right. apply keys_dict_set_in. now left.
    + unfold dict_of, dict_update. cbn [fold_left fst snd].
      apply keys_dict_set_in. now left.
Qed.

End AnyModule.

Lemma module_spec_files_witness :
  exists m,
    fst (module_spec (unicode := Sample.unicode)
           Sample.construct_function_call Sample.render "jst" "base" 2
           (Instance_ 2 (Obj 1 [] Sample.two_definitions)
              (Obj 1 [] Sample.two_definitions) None (Some "État"))
           Sample.start) = Ok m
    /\ List.NoDup (keys m) /\ In "état.py" (keys m) /\ In "__init__.py" (keys m).
Proof.
  destruct (module_spec_files (unicode := Sample.unicode)
              Sample.construct_function_call Sample.render "jst" "base" 2
              (Instance_ 2 (Obj 1 [] Sample.two_definitions)
                 (Obj 1 [] Sample.two_definitions) None (Some "État"))
              Sample.start _ _ eq_refl)
    as (_ & N & c & Hc & F).
  injection Hc as <-.
  eexists. split; [reflexivity|].
  split; [exact N|]. split; apply F; vm_compute; tauto.
Defined.
